(** * Compliance dashboard: violations table, API client and scan progress

    A shallow embedding of the client-side logic of the compliance
    dashboard (types/compliance.ts, components/ViolationsTable.tsx,
    services/complianceApi.ts, components/ScanProgress.tsx) together
    with the properties of its sort, selection, status gating, error
    normalisation, progress and polling behaviour.

    Conventions.  A JavaScript string is a [string] (a sequence of 8-bit
    code units, compared lexicographically as [<] does on code units).
    A time value returned by [Date.prototype.getTime] is an integral
    number of milliseconds or NaN: it is an [option Z], [None] being NaN.
    Resource counts are IEEE 754 binary64 numbers ([float]), because the
    progress computation divides and rounds them.  Promises are values of
    a two-constructor result type. *)

From Stdlib Require Import ZArith Floats.
From stdpp Require Import gmap strings list sorting pretty.

(** ** Host functions the components call but do not define *)

(** [Date_getTime s] is [new Date(s).getTime()]; [toLowerCase s] is
    [s.toLowerCase()].  Both belong to the JavaScript host; every result
    below holds for any choice of them. *)
Class JsHost := {
  Date_getTime : string → option Z;
  toLowerCase : string → string
}.

(** [aValue < bValue] on two time values: false as soon as one is NaN. *)
Definition number_lt (x y : option Z) : bool :=
  match x, y with
  | Some a, Some b => (a <? b)%Z
  | _, _ => false
  end.

(** [x || dflt] on a possibly missing string: the empty string and
    [undefined] are falsy. *)
Definition or_else (x : option string) (dflt : string) : string :=
  match x with
  | Some s => if String.eqb s "" then dflt else s
  | None => dflt
  end.

(** ** types/compliance.ts *)

Inductive Provider := AWS | AZURE | GCP.
Inductive Severity := LOW | MEDIUM | HIGH | CRITICAL.
Inductive ViolationStatus := OPEN | IN_PROGRESS | RESOLVED | ACCEPTED.
Inductive ScanStatus := running | completed | failed.

#[global] Instance Provider_eq_dec : EqDecision Provider.
Proof. solve_decision. Defined.
#[global] Instance Severity_eq_dec : EqDecision Severity.
Proof. solve_decision. Defined.
#[global] Instance ViolationStatus_eq_dec : EqDecision ViolationStatus.
Proof. solve_decision. Defined.
#[global] Instance ScanStatus_eq_dec : EqDecision ScanStatus.
Proof. solve_decision. Defined.

(** The string literal behind each status, as it travels on the wire. *)
Definition status_string (s : ViolationStatus) : string :=
  match s with
  | OPEN => "OPEN"
  | IN_PROGRESS => "IN_PROGRESS"
  | RESOLVED => "RESOLVED"
  | ACCEPTED => "ACCEPTED"
  end.

Module CloudResource.
Record t := mk {
  id : string;
  name : string;
  type : string;
  provider : Provider;
  region : string;
  account_id : string;
  configuration : gmap string string;
  tags : gmap string string;
  discovered_at : string
}.
End CloudResource.

Module ComplianceFramework.
Record t := mk {
  id : string;
  name : string;
  control_id : string;
  control_description : string
}.
End ComplianceFramework.

Module PolicyViolation.
Record t := mk {
  violation_id : string;
  policy_name : string;
  resource : CloudResource.t;
  severity : Severity;
  description : string;
  remediation : string;
  frameworks : list ComplianceFramework.t;
  detected_at : string;
  status : ViolationStatus
}.
End PolicyViolation.

Module SeverityCounts.
Record t := mk { low : float; medium : float; high : float; critical : float }.
End SeverityCounts.

Module ComplianceScanResult.
Record t := mk {
  scan_id : string;
  status : ScanStatus;
  provider : Provider;
  total_resources : float;
  scanned_resources : float;
  violations_count : float;
  violations_by_severity : SeverityCounts.t;
  violations : list PolicyViolation.t;
  start_time : string;
  end_time : option string;
  duration : option float
}.
End ComplianceScanResult.

Module ApiResponse.
Record t (T : Type) := mk {
  data : T;
  message : string;
  timestamp : string;
  request_id : string
}.
Arguments mk {T}.
Arguments data {T}.
Arguments message {T}.
Arguments timestamp {T}.
Arguments request_id {T}.
End ApiResponse.

Module ApiError.
Record t := mk {
  code : string;
  message : string;
  details : option (gmap string string);
  request_id : string
}.
End ApiError.

(** ** Array.prototype.sort and array references *)

(** [Array.prototype.sort] with a comparison function.  For a consistent
    comparison function ECMAScript fixes the result: the stable sorted
    permutation, which is what insertion from the right computes.  An
    element moves past a neighbour only when the comparison is strictly
    positive, so tied elements keep their input order.  For a comparison
    function that is not consistent the language leaves the order to the
    implementation; the result is still a permutation of the input. *)
Section ArraySort.
Context {A : Type} (comparefn : A → A → Z).

Fixpoint sort_insert (x : A) (sorted : list A) : list A :=
  match sorted with
  | [] => [x]
  | y :: rest =>
      if (0 <? comparefn x y)%Z then y :: sort_insert x rest
      else x :: y :: rest
  end.

Definition Array_sort (l : list A) : list A := foldr sort_insert [] l.

End ArraySort.

(** Arrays are heap objects: a reference names a cell of the store that
    holds the array's elements.  [spread] is [[...arr]], a fresh array
    with the same elements; [sort_in_place] is [arr.sort(comparefn)],
    which overwrites the cell and returns the same reference. *)
Definition ref := positive.

Section Store.
Context {A : Type}.

Definition alloc (l : list A) (h : gmap ref (list A)) : ref * gmap ref (list A) :=
  let r := fresh (dom h) in (r, <[r := l]> h).

Definition spread (r : ref) (h : gmap ref (list A)) : option (ref * gmap ref (list A)) :=
  l ← h !! r; Some (alloc l h).

Definition sort_in_place (comparefn : A → A → Z) (r : ref) (h : gmap ref (list A))
  : option (ref * gmap ref (list A)) :=
  l ← h !! r; Some (r, <[r := Array_sort comparefn l]> h).

End Store.

(** ** components/ViolationsTable.tsx *)

Module ViolationsTable.
Import PolicyViolation.

Inductive SortField :=
  F_detected_at | F_severity | F_policy_name | F_resource_name | F_status.
Inductive SortDirection := asc | desc.

#[global] Instance SortField_eq_dec : EqDecision SortField.
Proof. solve_decision. Defined.
#[global] Instance SortDirection_eq_dec : EqDecision SortDirection.
Proof. solve_decision. Defined.

(** [handleSort]: clicking the active field flips the direction, clicking
    another field selects it with descending direction. *)
Definition handleSort (sortField : SortField) (sortDirection : SortDirection)
    (field : SortField) : SortField * SortDirection :=
  if decide (sortField = field)
  then (sortField, if sortDirection is asc then desc else asc)
  else (field, desc).

Definition severityOrder (s : Severity) : Z :=
  match s with
  | CRITICAL => 4
  | HIGH => 3
  | MEDIUM => 2
  | LOW => 1
  end.

(** The last three lines of the comparison function, for keys compared
    by [lt]: [-1]/[1] when [aValue < bValue], [1]/[-1] when
    [aValue > bValue], [0] otherwise. *)
Definition threeWay {K : Type} (lt : K → K → bool) (sortDirection : SortDirection)
    (aValue bValue : K) : Z :=
  if lt aValue bValue then (if sortDirection is asc then -1 else 1)
  else if lt bValue aValue then (if sortDirection is asc then 1 else -1)
  else 0.

Section WithHost.
Context `{JsHost}.

(** The comparison function handed to [sort]: the [switch] picks the two
    keys, [threeWay] compares them. *)
Definition compareFn (sortField : SortField) (sortDirection : SortDirection)
    (a b : PolicyViolation.t) : Z :=
  match sortField with
  | F_detected_at =>
      threeWay number_lt sortDirection
        (Date_getTime (detected_at a)) (Date_getTime (detected_at b))
  | F_severity =>
      threeWay Z.ltb sortDirection
        (severityOrder (severity a)) (severityOrder (severity b))
  | F_policy_name =>
      threeWay String.ltb sortDirection
        (toLowerCase (policy_name a)) (toLowerCase (policy_name b))
  | F_resource_name =>
      threeWay String.ltb sortDirection
        (toLowerCase (CloudResource.name (resource a)))
        (toLowerCase (CloudResource.name (resource b)))
  | F_status =>
      threeWay String.ltb sortDirection
        (status_string (status a)) (status_string (status b))
  end.

(** [aValue < bValue] for the two keys the [switch] picks. *)
Definition keyLess (sortField : SortField) (a b : PolicyViolation.t) : bool :=
  match sortField with
  | F_detected_at =>
      number_lt (Date_getTime (detected_at a)) (Date_getTime (detected_at b))
  | F_severity =>
      (severityOrder (severity a) <? severityOrder (severity b))%Z
  | F_policy_name =>
      String.ltb (toLowerCase (policy_name a)) (toLowerCase (policy_name b))
  | F_resource_name =>
      String.ltb (toLowerCase (CloudResource.name (resource a)))
                 (toLowerCase (CloudResource.name (resource b)))
  | F_status =>
      String.ltb (status_string (status a)) (status_string (status b))
  end.

(** The rows in display order, as a function of the list held by the
    [violations] prop. *)
Definition sortedList (sortField : SortField) (sortDirection : SortDirection)
    (violations : list PolicyViolation.t) : list PolicyViolation.t :=
  Array_sort (compareFn sortField sortDirection) violations.

(** [const sortedViolations = [...violations].sort(...)] on the store:
    copy the array named by [violations], sort the copy in place. *)
Definition sortedViolations (sortField : SortField) (sortDirection : SortDirection)
    (violations : ref) (h : gmap ref (list PolicyViolation.t))
  : option (ref * gmap ref (list PolicyViolation.t)) :=
  '(copy, h1) ← spread violations h;
  sort_in_place (compareFn sortField sortDirection) copy h1.

(** Two rows tie on a field when the comparison function returns 0 for
    them (in either direction). *)
Definition tied (sortField : SortField) (a b : PolicyViolation.t) : Prop :=
  compareFn sortField asc a b = 0%Z.

End WithHost.

(** *** Selection *)

Definition visibleIds (violations : list PolicyViolation.t) : gset string :=
  list_to_set (violation_id <$> violations).

(** The [checked] attribute of the header checkbox. *)
Definition selectAllChecked (violations : list PolicyViolation.t)
    (selectedViolations : gset string) : bool :=
  bool_decide (size selectedViolations = length violations)
  && bool_decide (0 < length violations).



(** The row checkbox's [onChange]. *)
Definition toggleOne (violation : PolicyViolation.t) (checked : bool)
    (selectedViolations : gset string) : gset string :=
  if checked then selectedViolations ∪ {[ violation_id violation ]}
  else selectedViolations ∖ {[ violation_id violation ]}.

(** *** Inline status change *)

(** The [<select>] of a row: absent unless the row is OPEN; otherwise
    its [<option>]s as (value, label) pairs. *)
Definition statusSelect (violation : PolicyViolation.t)
  : option (list (string * string)) :=
  if decide (status violation = OPEN)
  then Some [ ("", "Update Status");
              ("IN_PROGRESS", "Mark In Progress");
              ("RESOLVED", "Mark Resolved");
              ("ACCEPTED", "Accept Risk") ]
  else None.

(** The [<select>]'s [onChange]: the status passed to
    [updateViolationStatus], if any ([if (e.target.value)]). *)
Definition onStatusChange (value : string) : option string :=
  if String.eqb value "" then None else Some value.

(** The statuses a row can be moved to from the table. *)
Definition statusTargets (violation : PolicyViolation.t) : list string :=
  match statusSelect violation with
  | Some options => omap (λ o, onStatusChange o.1) options
  | None => []
  end.

End ViolationsTable.

(** ** services/complianceApi.ts *)

(** A settled promise: fulfilled with a value or rejected with a reason. *)
Inductive Settled (E T : Type) :=
  | Fulfilled (value : T)
  | Rejected (reason : E).
Arguments Fulfilled {E T}.
Arguments Rejected {E T}.

(** [p.then(onFulfilled, onRejected)] on a settled promise. *)
Definition then_ {E E' A B : Type} (p : Settled E A)
    (onFulfilled : A → Settled E' B) (onRejected : E → Settled E' B) : Settled E' B :=
  match p with
  | Fulfilled v => onFulfilled v
  | Rejected e => onRejected e
  end.

(** [await p] followed by the rest of an [async] function body, outside
    any [try]: a rejection leaves the function at once. *)
Definition await {E A B : Type} (p : Settled E A) (k : A → Settled E B) : Settled E B :=
  then_ p k Rejected.

Module ErrorPayload.
(** The body of an error response, read through [as any]: each field of
    the error shape may be missing. *)
Record t := mk {
  code : option string;
  message : option string;
  details : option (gmap string string);
  request_id : option string
}.
End ErrorPayload.

Module ErrorResponse.
Record t := mk { status : Z; data : ErrorPayload.t }.
End ErrorResponse.

Module AxiosError.
(** [response] is set when the server answered with a failure status;
    [request] is truthy when a request was sent. *)
Record t := mk {
  response : option ErrorResponse.t;
  request : bool;
  message : string
}.
End AxiosError.

Module AxiosRequestConfig.
Record t := mk {
  method : string;
  url : string;
  params : list (string * string);
  data : list (string * string);
  headers : list (string * string)
}.
End AxiosRequestConfig.

Module AxiosResponse.
Record t (T : Type) := mk { status : Z; data : T }.
Arguments mk {T}.
Arguments status {T}.
Arguments data {T}.
End AxiosResponse.

Module ComplianceApiService.

Definition handleApiError (error : AxiosError.t) : ApiError.t :=
  match AxiosError.response error with
  | Some response =>
      let responseData := ErrorResponse.data response in
      {| ApiError.code :=
           or_else (ErrorPayload.code responseData)
                   ("HTTP_" +:+ pretty (ErrorResponse.status response));
         ApiError.message :=
           or_else (ErrorPayload.message responseData) (AxiosError.message error);
         ApiError.details := ErrorPayload.details responseData;
         ApiError.request_id :=
           or_else (ErrorPayload.request_id responseData) "unknown" |}
  | None =>
      if AxiosError.request error then
        {| ApiError.code := "NETWORK_ERROR";
           ApiError.message := "Unable to connect to compliance service";
           ApiError.details := None;
           ApiError.request_id := "unknown" |}
      else
        {| ApiError.code := "REQUEST_ERROR";
           ApiError.message := AxiosError.message error;
           ApiError.details := None;
           ApiError.request_id := "unknown" |}
  end.

(** What an operation that sends the request [config] and reads
    [extract] from the response reports to its caller: the value read
    from a successful response, or the normalised error of a failed
    one. *)
Definition reportOf {R T : Type}
    (adapter : AxiosRequestConfig.t → Settled AxiosError.t (AxiosResponse.t R))
    (config : AxiosRequestConfig.t) (extract : AxiosResponse.t R → T)
  : Settled ApiError.t T :=
  match adapter config with
  | Fulfilled response => Fulfilled (extract response)
  | Rejected error => Rejected (handleApiError error)
  end.

(** The headers of a request are an object: [headers[name]] reads a
    key, and [headers[name] = value] overwrites the key where it stands
    or adds it after the existing ones. *)
Fixpoint getHeader (name : string) (headers : list (string * string)) : option string :=
  match headers with
  | [] => None
  | (k, v) :: rest => if String.eqb k name then Some v else getHeader name rest
  end.

Fixpoint setHeader (name value : string) (headers : list (string * string))
  : list (string * string) :=
  match headers with
  | [] => [(name, value)]
  | (k, v) :: rest =>
      if String.eqb k name then (name, value) :: rest
      else (k, v) :: setHeader name value rest
  end.

Section Client.
(** [apiKey] is [process.env.REACT_APP_API_KEY]; [adapter] is the HTTP
    transport behind the axios instance, which settles each request. *)
Context (apiKey : option string).
Context {T : Type} (adapter : AxiosRequestConfig.t → Settled AxiosError.t (AxiosResponse.t T)).

(** The request interceptor: [config.headers.Authorization] is assigned
    the bearer token when there is a key. *)
Definition requestInterceptor (config : AxiosRequestConfig.t) : AxiosRequestConfig.t :=
  match apiKey with
  | Some key =>
      if String.eqb key "" then config
      else {| AxiosRequestConfig.method := AxiosRequestConfig.method config;
              AxiosRequestConfig.url := AxiosRequestConfig.url config;
              AxiosRequestConfig.params := AxiosRequestConfig.params config;
              AxiosRequestConfig.data := AxiosRequestConfig.data config;
              AxiosRequestConfig.headers :=
                setHeader "Authorization" ("Bearer " +:+ key)
                  (AxiosRequestConfig.headers config) |}
  | None => config
  end.

(** One request through the instance: request interceptor, transport,
    response interceptor (whose error handler rejects with
    [handleApiError error]). *)
Definition request (config : AxiosRequestConfig.t)
  : Settled ApiError.t (AxiosResponse.t T) :=
  then_ (adapter (requestInterceptor config))
        Fulfilled
        (λ error, Rejected (handleApiError error)).

Definition get (url : string) (params : list (string * string)) :=
  request (AxiosRequestConfig.mk "get" url params [] []).
Definition post (url : string) (data : list (string * string)) :=
  request (AxiosRequestConfig.mk "post" url [] data []).
Definition patch (url : string) (data : list (string * string)) :=
  request (AxiosRequestConfig.mk "patch" url [] data []).

End Client.

(** [response.data.data]: the payload inside the response envelope. *)
Definition payloadOf {T : Type} (response : AxiosResponse.t (ApiResponse.t T)) : T :=
  ApiResponse.data (AxiosResponse.data response).

Section Operations.
Context (apiKey : option string).

(** [healthCheck]: the [try]/[catch] turns every failure into [false]. *)
Definition healthCheck {T : Type}
    (adapter : AxiosRequestConfig.t → Settled AxiosError.t (AxiosResponse.t T))
  : Settled ApiError.t bool :=
  then_ (get apiKey adapter "/health" [])
        (λ response, Fulfilled (bool_decide (AxiosResponse.status response = 200%Z)))
        (λ error, Fulfilled false).

Section Enveloped.
(** The other operations read [response.data.data] out of the envelope. *)
Context {T : Type}.
Context (adapter : AxiosRequestConfig.t →
                   Settled AxiosError.t (AxiosResponse.t (ApiResponse.t T))).

Definition unwrap (response : AxiosResponse.t (ApiResponse.t T)) : Settled ApiError.t T :=
  Fulfilled (payloadOf response).

Definition startComplianceScan (scanRequest : list (string * string)) : Settled ApiError.t T :=
  await (post apiKey adapter "/scan" scanRequest) unwrap.

Definition getScanStatus (scanId : string) : Settled ApiError.t T :=
  await (get apiKey adapter ("/scan/" +:+ scanId +:+ "/status") []) unwrap.

Definition getScanResults (scanId : string) : Settled ApiError.t T :=
  await (get apiKey adapter ("/scan/" +:+ scanId +:+ "/results") []) unwrap.

(** [filters] is the filter object already serialised by
    [JSON.stringify], when one was given. *)
Definition getDashboardMetrics (filters : option string) : Settled ApiError.t T :=
  let params := match filters with Some f => [("filters", f)] | None => [] end in
  await (get apiKey adapter "/dashboard/metrics" params) unwrap.

Definition getViolations (page page_size : option Z) (sort_by sort_order filters : option string)
  : Settled ApiError.t T :=
  let page' := match page with Some p => if (p =? 0)%Z then 1%Z else p | None => 1%Z end in
  let size' := match page_size with Some p => if (p =? 0)%Z then 50%Z else p | None => 50%Z end in
  let params :=
    [ ("page", pretty page'); ("page_size", pretty size');
      ("sort_by", or_else sort_by "detected_at");
      ("sort_order", or_else sort_order "desc") ]
    ++ match filters with Some f => [("filters", f)] | None => [] end in
  await (get apiKey adapter "/violations" params) unwrap.

Definition getPolicies : Settled ApiError.t T :=
  await (get apiKey adapter "/policies" []) unwrap.

Definition getComplianceTrend (options : list (string * string)) : Settled ApiError.t T :=
  await (get apiKey adapter "/dashboard/trend" options) unwrap.

End Enveloped.

(** [updateViolationStatus] resolves with no value. *)
Definition updateViolationStatus {T : Type}
    (adapter : AxiosRequestConfig.t → Settled AxiosError.t (AxiosResponse.t T))
    (violationId : string) (status : string) (notes : option string)
  : Settled ApiError.t unit :=
  let data := ("status", status)
              :: match notes with Some n => [("notes", n)] | None => [] end in
  await (patch apiKey adapter ("/violations/" +:+ violationId +:+ "/status") data)
        (λ _, Fulfilled tt).

End Operations.

End ComplianceApiService.

(** ** components/ScanProgress.tsx *)

Module ScanProgress.
Import ComplianceScanResult.

(** [Math.round]: a non-finite or integral number is returned as it is;
    otherwise the closest integer, the one nearer to +infinity on a tie;
    a result of zero keeps the sign of the argument.  A finite binary64
    number is [m * 2^e] with a sign, so the integer is computed exactly. *)
Definition Math_round (x : float) : float :=
  match Prim2SF x with
  | S754_finite s m e =>
      if (0 <=? e)%Z then x
      else
        let twice := (2 * (if s then Z.neg m else Z.pos m))%Z in
        let n := ((twice + 2 ^ (- e)) / 2 ^ (1 - e))%Z in
        if (n =? 0)%Z then (if s then neg_zero else zero)
        else if (n <? 0)%Z then PrimFloat.opp (PrimFloat.of_uint63 (Uint63.of_Z (- n)))
        else PrimFloat.of_uint63 (Uint63.of_Z n)
  | _ => x
  end.

Definition progressPercentage (scan : ComplianceScanResult.t) : float :=
  if PrimFloat.ltb 0 (total_resources scan)
  then Math_round (scanned_resources scan / total_resources scan * 100)%float
  else 0%float.

(** The polling effect, with dependencies [scan.status] and
    [scan.scan_id]: a running scan arms an interval timer of 5000 ms, any
    other status leaves no timer (the cleanup of the previous run has
    cleared it). *)
Definition pollingEffect (scan : ComplianceScanResult.t) : option Z :=
  if decide (status scan = running) then Some 5000%Z else None.

(** The component between two events.  [interval] is the armed timer's
    period, [pending] counts the status fetches still awaiting their
    response, [polls] the fetches started by the timer and
    [completeCalls] the invocations of the [onScanComplete] prop. *)
Record State := mkState {
  scan : ComplianceScanResult.t;
  loading : bool;
  interval : option Z;
  pending : nat;
  polls : nat;
  completeCalls : nat
}.

(** What can happen to a mounted component: the timer fires, the user
    presses Refresh, a pending fetch resolves with the backend's answer,
    or a pending fetch rejects. *)
Inductive Event :=
  | Tick
  | Refresh
  | Resolve (updatedScan : ComplianceScanResult.t)
  | Fail (error : ApiError.t).

Definition mount (initialScan : ComplianceScanResult.t) : State :=
  {| scan := initialScan; loading := false;
     interval := pollingEffect initialScan;
     pending := 0; polls := 0; completeCalls := 0 |}.

(** [updateScanStatus] up to its [await]: [setLoading(true)] and the
    call to [getScanStatus]. *)
Definition beginUpdate (st : State) : State :=
  {| scan := scan st; loading := true; interval := interval st;
     pending := S (pending st); polls := polls st;
     completeCalls := completeCalls st |}.

(** After a render the effect runs again only if a dependency changed. *)
Definition rerunEffect (before after : ComplianceScanResult.t) (timer : option Z)
  : option Z :=
  if decide (status before = status after ∧ scan_id before = scan_id after)
  then timer else pollingEffect after.

Section WithProps.
(** Whether the parent passed an [onScanComplete] callback. *)
Context (onScanComplete : bool).

(** [updateScanStatus] after a successful [await]: [setScan], the
    callback when the answer says completed, [setLoading(false)]. *)
Definition resolveUpdate (st : State) (updatedScan : ComplianceScanResult.t) : State :=
  {| scan := updatedScan; loading := false;
     interval := rerunEffect (scan st) updatedScan (interval st);
     pending := pred (pending st); polls := polls st;
     completeCalls :=
       if bool_decide (status updatedScan = completed) && onScanComplete
       then S (completeCalls st) else completeCalls st |}.

(** [updateScanStatus] after a rejected [await]: the error is logged and
    [setLoading(false)] runs. *)
Definition failUpdate (st : State) : State :=
  {| scan := scan st; loading := false; interval := interval st;
     pending := pred (pending st); polls := polls st;
     completeCalls := completeCalls st |}.

(** One event; [None] when the event cannot happen in this state: no
    timer is armed, the Refresh button is disabled, or no fetch is
    pending. *)
Definition step (st : State) (ev : Event) : option State :=
  match ev with
  | Tick =>
      match interval st with
      | Some _ =>
          Some {| scan := scan st; loading := true; interval := interval st;
                  pending := S (pending st); polls := S (polls st);
                  completeCalls := completeCalls st |}
      | None => None
      end
  | Refresh => if loading st then None else Some (beginUpdate st)
  | Resolve updatedScan =>
      if bool_decide (pending st = 0) then None
      else Some (resolveUpdate st updatedScan)
  | Fail _ =>
      if bool_decide (pending st = 0) then None else Some (failUpdate st)
  end.

Fixpoint run (st : State) (events : list Event) : option State :=
  match events with
  | [] => Some st
  | ev :: rest =>
      match step st ev with
      | Some st' => run st' rest
      | None => None
      end
  end.

End WithProps.

Definition isTerminal (s : ScanStatus) : bool :=
  match s with
  | running => false
  | completed | failed => true
  end.

Definition isResolveWith (p : ScanStatus → bool) (ev : Event) : bool :=
  match ev with
  | Resolve updatedScan => p (status updatedScan)
  | _ => false
  end.

Definition isTick (ev : Event) : bool :=
  match ev with
  | Tick => true
  | _ => false
  end.

Definition isRunning (s : ScanStatus) : bool := bool_decide (s = running).
Definition isCompleted (s : ScanStatus) : bool := bool_decide (s = completed).

(** How many of the events are status answers that say completed. *)
Fixpoint completedAnswers (events : list Event) : nat :=
  match events with
  | [] => 0
  | ev :: rest =>
      (if isResolveWith isCompleted ev then 1 else 0) + completedAnswers rest
  end.

End ScanProgress.

(** ** types/compliance.ts, continued *)

Module DashboardFilters.
(** [Partial<DashboardFilters>]: every key may be missing.  The values of
    the multi-select dimensions are the string literals they hold at run
    time ([value: any] in the panel). *)
Record t := mk {
  providers : option (list string);
  severities : option (list string);
  account_ids : option (list string);
  frameworks : option (list string);
  statuses : option (list string);
  date_range : option (string * string)
}.
End DashboardFilters.

Module ProviderCounts.
Record t := mk { aws : float; azure : float; gcp : float }.
End ProviderCounts.

Module ComplianceDashboardMetrics.
Record t := mk {
  compliance_score : float;
  total_resources : float;
  compliant_resources : float;
  non_compliant_resources : float;
  violations_by_severity : SeverityCounts.t;
  violations_by_provider : ProviderCounts.t;
  compliance_by_framework : list (ComplianceFramework.t * float * float);
  compliance_trend : list (string * float * float)
}.
End ComplianceDashboardMetrics.

Module ViolationsPage.
(** What [getViolations] resolves with. *)
Record t := mk {
  violations : list PolicyViolation.t;
  total_count : float;
  page : float;
  page_size : float;
  total_pages : float
}.
End ViolationsPage.

(** ** components/ViolationsTable.tsx, continued *)

Module ViolationRow.

(** What a call of the table's [updateViolationStatus] did besides the
    request: how often it invoked [onViolationUpdate] and which error it
    logged. *)
Record Effects := mkEffects {
  refreshCalls : nat;
  logged : option ApiError.t
}.

(** The table's [updateViolationStatus]: [await] the client's status
    update (without notes), then [onViolationUpdate?.()]; the [catch]
    logs the error.  [onViolationUpdate] tells whether the parent passed
    the callback. *)
Definition updateViolationStatus (apiKey : option string) {T : Type}
    (adapter : AxiosRequestConfig.t → Settled AxiosError.t (AxiosResponse.t T))
    (onViolationUpdate : bool) (violationId newStatus : string)
  : Settled ApiError.t Effects :=
  then_ (ComplianceApiService.updateViolationStatus apiKey adapter
           violationId newStatus None)
        (λ _, Fulfilled (mkEffects (if onViolationUpdate then 1 else 0) None))
        (λ error, Fulfilled (mkEffects 0 (Some error))).

End ViolationRow.

(** ** components/FilterPanel.tsx *)

Module FilterPanel.
Import DashboardFilters.

(** The keys of the multi-select dimensions. *)
Inductive Field :=
  K_providers | K_severities | K_account_ids | K_frameworks | K_statuses.

#[global] Instance Field_eq_dec : EqDecision Field.
Proof. solve_decision. Defined.

(** [localFilters[field]]. *)
Definition getField (field : Field) (filters : DashboardFilters.t)
  : option (list string) :=
  match field with
  | K_providers => providers filters
  | K_severities => severities filters
  | K_account_ids => account_ids filters
  | K_frameworks => frameworks filters
  | K_statuses => statuses filters
  end.

(** [updateFilter] at a multi-select key: [{...prev, [field]: value}]. *)
Definition updateFilter (field : Field) (value : list string)
    (prev : DashboardFilters.t) : DashboardFilters.t :=
  match field with
  | K_providers =>
      mk (Some value) (severities prev) (account_ids prev) (frameworks prev)
         (statuses prev) (date_range prev)
  | K_severities =>
      mk (providers prev) (Some value) (account_ids prev) (frameworks prev)
         (statuses prev) (date_range prev)
  | K_account_ids =>
      mk (providers prev) (severities prev) (Some value) (frameworks prev)
         (statuses prev) (date_range prev)
  | K_frameworks =>
      mk (providers prev) (severities prev) (account_ids prev) (Some value)
         (statuses prev) (date_range prev)
  | K_statuses =>
      mk (providers prev) (severities prev) (account_ids prev) (frameworks prev)
         (Some value) (date_range prev)
  end.

(** [updateFilter] at the key [date_range]. *)
Definition updateDateRange (value : string * string)
    (prev : DashboardFilters.t) : DashboardFilters.t :=
  mk (providers prev) (severities prev) (account_ids prev) (frameworks prev)
     (statuses prev) (Some value).

(** [toggleFilterValue]: a missing key counts as the empty array; a
    selected value is filtered out, an unselected one is appended. *)
Definition toggleFilterValue (field : Field) (value : string)
    (localFilters : DashboardFilters.t) : DashboardFilters.t :=
  let currentValues := default [] (getField field localFilters) in
  let isSelected := bool_decide (value ∈ currentValues) in
  updateFilter field
    (if isSelected then filter (λ v, v ≠ value) currentValues
     else currentValues ++ [value])
    localFilters.

(** The [checked] attribute of a value's checkbox. *)
Definition isChecked (field : Field) (value : string)
    (localFilters : DashboardFilters.t) : bool :=
  bool_decide (value ∈ default [] (getField field localFilters)).

(** The object [resetFilters] stores. *)
Definition emptyFilters : DashboardFilters.t :=
  mk (Some []) (Some []) (Some []) (Some []) (Some []) (Some ("", "")).

End FilterPanel.

(** ** components/ComplianceDashboard.tsx *)

Module ComplianceDashboard.

(** [Promise.all] of two settled promises: the pair of values, or a
    rejection as soon as one of them rejects.  When both reject, the
    reason kept is the first argument's; the component only logs it. *)
Definition Promise_all2 {E A B : Type} (a : Settled E A) (b : Settled E B)
  : Settled E (A * B) :=
  match a, b with
  | Fulfilled x, Fulfilled y => Fulfilled (x, y)
  | Rejected e, _ => Rejected e
  | Fulfilled _, Rejected e => Rejected e
  end.

(** The two requests of [loadDashboardData].  [filters] is the current
    filter object as serialised by [JSON.stringify]. *)
Definition fetchDashboardData (apiKey : option string)
    (metricsAdapter : AxiosRequestConfig.t →
       Settled AxiosError.t
         (AxiosResponse.t (ApiResponse.t ComplianceDashboardMetrics.t)))
    (violationsAdapter : AxiosRequestConfig.t →
       Settled AxiosError.t (AxiosResponse.t (ApiResponse.t ViolationsPage.t)))
    (filters : string)
  : Settled ApiError.t (ComplianceDashboardMetrics.t * ViolationsPage.t) :=
  Promise_all2
    (ComplianceApiService.getDashboardMetrics apiKey metricsAdapter (Some filters))
    (ComplianceApiService.getViolations apiKey violationsAdapter
       (Some 1%Z) (Some 100%Z) (Some "severity") (Some "desc") (Some filters)).

Definition provider_string (p : Provider) : string :=
  match p with
  | AWS => "AWS"
  | AZURE => "AZURE"
  | GCP => "GCP"
  end.

(** The request of [startNewScan]; an array is written as its items
    separated by commas. *)
Definition startScanRequest (apiKey : option string) {T : Type}
    (adapter : AxiosRequestConfig.t →
       Settled AxiosError.t (AxiosResponse.t (ApiResponse.t T)))
    (provider : Provider) : Settled ApiError.t T :=
  ComplianceApiService.startComplianceScan apiKey adapter
    [ ("provider", provider_string provider);
      ("resource_types", "S3_BUCKET,EC2_INSTANCE,RDS_DB_INSTANCE");
      ("policy_bundle", "security_baseline");
      ("compliance_frameworks", "SOC2,PCI_DSS") ].

(** The component's state.  [panel] is the mounted filter panel's
    [localFilters]: [showFilters] is true exactly when it is [Some].
    [timeouts] holds the delays of the pending [setTimeout] refreshes. *)
Record State := mkState {
  metrics : option ComplianceDashboardMetrics.t;
  violations : list PolicyViolation.t;
  activeScans : list ComplianceScanResult.t;
  filters : DashboardFilters.t;
  loading : bool;
  error : option string;
  panel : option DashboardFilters.t;
  lastRefresh : Z;
  timeouts : list Z
}.

(** What a user or the environment can do to a mounted dashboard. *)
Inductive Event :=
  | BeginLoad
  | LoadSettled
      (outcome : Settled ApiError.t (ComplianceDashboardMetrics.t * ViolationsPage.t))
      (now : Z)
  | ScanSettled (outcome : Settled ApiError.t string)
  | TimeoutFired
  | FiltersButton
  | PanelToggle (field : FilterPanel.Field) (value : string)
  | PanelUpdate (field : FilterPanel.Field) (value : list string)
  | PanelDateRange (value : string * string)
  | PanelReset
  | PanelApply
  | PanelClose.

(** The component as first rendered, with [initialFilters] at its
    default [{}]. *)
Definition mount (now : Z) : State :=
  {| metrics := None; violations := []; activeScans := [];
     filters := DashboardFilters.mk None None None None None None;
     loading := true; error := None; panel := None;
     lastRefresh := now; timeouts := [] |}.

(** [loadDashboardData] up to its [await]. *)
Definition beginLoad (st : State) : State :=
  {| metrics := metrics st; violations := violations st;
     activeScans := activeScans st; filters := filters st;
     loading := true; error := None; panel := panel st;
     lastRefresh := lastRefresh st; timeouts := timeouts st |}.

(** [loadDashboardData] after its [await]: the three setters on success,
    [setError] in the [catch], [setLoading(false)] in the [finally]. *)
Definition settleLoad (st : State)
    (outcome : Settled ApiError.t (ComplianceDashboardMetrics.t * ViolationsPage.t))
    (now : Z) : State :=
  match outcome with
  | Fulfilled (metricsData, violationsData) =>
      {| metrics := Some metricsData;
         violations := ViolationsPage.violations violationsData;
         activeScans := activeScans st; filters := filters st;
         loading := false; error := error st; panel := panel st;
         lastRefresh := now; timeouts := timeouts st |}
  | Rejected _ =>
      {| metrics := metrics st; violations := violations st;
         activeScans := activeScans st; filters := filters st;
         loading := false;
         error := Some "Failed to load compliance data. Please check your connection.";
         panel := panel st;
         lastRefresh := lastRefresh st; timeouts := timeouts st |}
  end.

(** [startNewScan] after its [await]: a refresh in 2000 ms on success,
    [setError] in the [catch]. *)
Definition settleScan {T : Type} (st : State) (outcome : Settled ApiError.t T) : State :=
  match outcome with
  | Fulfilled _ =>
      {| metrics := metrics st; violations := violations st;
         activeScans := activeScans st; filters := filters st;
         loading := loading st; error := error st; panel := panel st;
         lastRefresh := lastRefresh st; timeouts := timeouts st ++ [2000%Z] |}
  | Rejected _ =>
      {| metrics := metrics st; violations := violations st;
         activeScans := activeScans st; filters := filters st;
         loading := loading st;
         error := Some "Failed to start compliance scan. Please try again.";
         panel := panel st;
         lastRefresh := lastRefresh st; timeouts := timeouts st |}
  end.

Definition withPanel (st : State) (p : option DashboardFilters.t) : State :=
  {| metrics := metrics st; violations := violations st;
     activeScans := activeScans st; filters := filters st;
     loading := loading st; error := error st; panel := p;
     lastRefresh := lastRefresh st; timeouts := timeouts st |}.

(** [applyFilters]: [onFiltersChange(localFilters)], then [onClose()]. *)
Definition applyFilters (st : State) (localFilters : DashboardFilters.t) : State :=
  {| metrics := metrics st; violations := violations st;
     activeScans := activeScans st; filters := localFilters;
     loading := loading st; error := error st; panel := None;
     lastRefresh := lastRefresh st; timeouts := timeouts st |}.

(** One event; [None] when it cannot happen: no timeout is pending, or
    the panel is not mounted. *)
Definition step (st : State) (ev : Event) : option State :=
  match ev with
  | BeginLoad => Some (beginLoad st)
  | LoadSettled outcome now => Some (settleLoad st outcome now)
  | ScanSettled outcome => Some (settleScan st outcome)
  | TimeoutFired =>
      match timeouts st with
      | _ :: rest =>
          Some (beginLoad
                  {| metrics := metrics st; violations := violations st;
                     activeScans := activeScans st; filters := filters st;
                     loading := loading st; error := error st; panel := panel st;
                     lastRefresh := lastRefresh st; timeouts := rest |})
      | [] => None
      end
  | FiltersButton =>
      Some (withPanel st (match panel st with
                          | Some _ => None
                          | None => Some (filters st)
                          end))
  | PanelToggle field value =>
      localFilters ← panel st;
      Some (withPanel st (Some (FilterPanel.toggleFilterValue field value localFilters)))
  | PanelUpdate field value =>
      localFilters ← panel st;
      Some (withPanel st (Some (FilterPanel.updateFilter field value localFilters)))
  | PanelDateRange value =>
      localFilters ← panel st;
      Some (withPanel st (Some (FilterPanel.updateDateRange value localFilters)))
  | PanelReset =>
      _ ← panel st; Some (withPanel st (Some FilterPanel.emptyFilters))
  | PanelApply => localFilters ← panel st; Some (applyFilters st localFilters)
  | PanelClose => _ ← panel st; Some (withPanel st None)
  end.

Fixpoint run (st : State) (events : list Event) : option State :=
  match events with
  | [] => Some st
  | ev :: rest =>
      match step st ev with
      | Some st' => run st' rest
      | None => None
      end
  end.

(** What the component renders: the loading screen, the full-page error
    with its message, or the dashboard itself. *)
Inductive View := LoadingScreen | ErrorScreen (message : string) | Main.

Definition render (st : State) : View :=
  if loading st && bool_decide (metrics st = None) then LoadingScreen
  else match error st with
       | Some message =>
           if negb (String.eqb message "") && bool_decide (metrics st = None)
           then ErrorScreen message else Main
       | None => Main
       end.

Definition isPanelApply (ev : Event) : bool :=
  match ev with
  | PanelApply => true
  | _ => false
  end.

Definition isLoadFulfilled (ev : Event) : bool :=
  match ev with
  | LoadSettled (Fulfilled _) _ => true
  | _ => false
  end.

(** How many of the events are scans that started successfully, and how
    many are refresh timeouts that fired. *)
Fixpoint startedScans (events : list Event) : nat :=
  match events with
  | [] => 0
  | ScanSettled (Fulfilled _) :: rest => S (startedScans rest)
  | _ :: rest => startedScans rest
  end.

Fixpoint firedTimeouts (events : list Event) : nat :=
  match events with
  | [] => 0
  | TimeoutFired :: rest => S (firedTimeouts rest)
  | _ :: rest => firedTimeouts rest
  end.

End ComplianceDashboard.

(** ** components/ScanProgress.tsx, continued *)

Module ScanProgressAnswers.
Import ScanProgress.

(** The scan carried by the last status answer among the events. *)
Fixpoint lastAnswer (events : list Event) : option ComplianceScanResult.t :=
  match events with
  | [] => None
  | ev :: rest =>
      match lastAnswer rest with
      | Some updatedScan => Some updatedScan
      | None => match ev with
                | Resolve updatedScan => Some updatedScan
                | _ => None
                end
      end
  end.

End ScanProgressAnswers.

Module ScanProgressCounts.
Import ComplianceScanResult ScanProgress.

(** A resource count as the number the component receives. *)
Definition countOf (n : Z) : float := PrimFloat.of_uint63 (Uint63.of_Z n).

(** The percentage as the specification words it, read in exact
    arithmetic: [scanned / total * 100] rounded to the nearest integer,
    halves upwards. *)
Definition spec_roundedPercentage (scanned total : Z) : Z :=
  ((200 * scanned + total) / (2 * total))%Z.

(** Whether the exact percentage lies halfway between two integers. *)
Definition isHalfway (scanned total : Z) : bool :=
  ((200 * scanned + total) mod (2 * total) =? 0)%Z.

(** The pairs (scanned, total) with a total of at most 200 at which the
    binary64 value of [scanned / total * 100] falls just below the exact
    half, so that [Math.round] gives one less than the exact rounding. *)
Definition lostHalves : list (Z * Z) :=
  [(23, 40); (46, 80); (69, 120); (92, 160);
   (29, 200); (57, 200); (113, 200); (115, 200)]%Z.

(** The percentage for two integral counts, in integers: the exact
    rounding, less one at the pairs of [lostHalves]. *)
Definition binary64_roundedPercentage (scanned total : Z) : Z :=
  if bool_decide ((scanned, total) ∈ lostHalves)
  then (spec_roundedPercentage scanned total - 1)%Z
  else spec_roundedPercentage scanned total.

(** The percentage the component computes for two integral counts. *)
Definition shownPercentage (scanned total : Z) : float :=
  if PrimFloat.ltb 0 (countOf total)
  then Math_round (countOf scanned / countOf total * 100)%float
  else 0%float.

(** The comparison of the two for one pair of counts. *)
Definition percentageAgrees (scanned total : Z) : bool :=
  PrimFloat.Leibniz.eqb (shownPercentage scanned total)
    (countOf (binary64_roundedPercentage scanned total)).

(** The comparison for every total from 1 to [bound] and every scanned
    count from 0 to the total. *)
Definition allPercentagesAgree (bound : nat) : bool :=
  forallb (λ t, forallb (λ s, percentageAgrees (Z.of_nat s) (Z.of_nat (S t)))
                  (seq 0 (S (S t))))
    (seq 0 bound).

End ScanProgressCounts.

(** ** Example data *)

Module Examples.

Definition lowerAscii (c : Ascii.ascii) : Ascii.ascii :=
  let n := Ascii.N_of_ascii c in
  if ((65 <=? n) && (n <=? 90))%N then Ascii.ascii_of_N (n + 32) else c.

Fixpoint lowerString (s : string) : string :=
  match s with
  | EmptyString => EmptyString
  | String c rest => String (lowerAscii c) (lowerString rest)
  end.

(** A host for running the examples: it lower-cases the ASCII letters
    and knows the time value of the three timestamps the examples use. *)
#[export] Instance host : JsHost := {|
  Date_getTime s :=
    if String.eqb s "2024-01-01T00:00:00.000Z" then Some 1704067200000%Z
    else if String.eqb s "2024-01-02T00:00:00.000Z" then Some 1704153600000%Z
    else if String.eqb s "2024-01-03T00:00:00.000Z" then Some 1704240000000%Z
    else None;
  toLowerCase := lowerString
|}.

Definition bucket (name : string) : CloudResource.t :=
  CloudResource.mk ("arn:" +:+ name) name "S3_BUCKET" AWS "us-east-1"
    "123456789012" ∅ ∅ "2024-01-01T00:00:00.000Z".

Definition violation (id policy resourceName : string) (sev : Severity)
    (detected : string) (st : ViolationStatus) : PolicyViolation.t :=
  PolicyViolation.mk id policy (bucket resourceName) sev
    "Bucket is not encrypted" "Enable default encryption" [] detected st.

Definition day1 : string := "2024-01-01T00:00:00.000Z".
Definition day2 : string := "2024-01-02T00:00:00.000Z".
Definition day3 : string := "2024-01-03T00:00:00.000Z".

Definition vLow : PolicyViolation.t := violation "v-1" "s3-encryption" "logs" LOW day1 OPEN.
Definition vCritical : PolicyViolation.t :=
  violation "v-2" "Public-Access" "Assets" CRITICAL day1 RESOLVED.
Definition vHigh : PolicyViolation.t := violation "v-3" "iam-mfa" "billing" HIGH day1 IN_PROGRESS.
Definition vMedium : PolicyViolation.t := violation "v-4" "tls-version" "web" MEDIUM day1 ACCEPTED.

(** Three rows that differ on every sort key. *)
Definition rowA : PolicyViolation.t := violation "a" "Alpha" "zeta" LOW day2 OPEN.
Definition rowB : PolicyViolation.t := violation "b" "charlie" "Yak" HIGH day1 RESOLVED.
Definition rowC : PolicyViolation.t := violation "c" "bravo" "xray" CRITICAL day3 ACCEPTED.

(** A row whose timestamp the host cannot read, and rows on three
    different days. *)
Definition rowUndated : PolicyViolation.t :=
  violation "u" "delta" "wolf" MEDIUM "not a date" OPEN.


Definition noCounts : SeverityCounts.t := SeverityCounts.mk 0 0 0 0.

Definition scanWith (st : ScanStatus) (total scanned : float) : ComplianceScanResult.t :=
  ComplianceScanResult.mk "scan-1" st AWS total scanned 0 noCounts []
    "2024-01-01T00:00:00.000Z" None None.

Definition networkDown : AxiosError.t :=
  AxiosError.mk None true "timeout of 30000ms exceeded".



Definition bareServerError : AxiosError.t :=
  AxiosError.mk
    (Some (ErrorResponse.mk 502 (ErrorPayload.mk None None None None)))
    true "Request failed with status code 502".

(** A draft with two providers selected and the other keys missing. *)
Definition awsAndGcp : DashboardFilters.t :=
  DashboardFilters.mk (Some ["AWS"; "GCP"]) None None None None None.

Definition someMetrics : ComplianceDashboardMetrics.t :=
  ComplianceDashboardMetrics.mk 87.5 40 35 5 noCounts (ProviderCounts.mk 0 0 0) [] [].

Definition somePage : ViolationsPage.t := ViolationsPage.mk [vLow; vHigh] 2 1 100 1.

(** A dashboard that has loaded data once and has its panel closed. *)
Definition loadedDashboard : ComplianceDashboard.State :=
  ComplianceDashboard.mkState (Some someMetrics) [vLow; vHigh] [] awsAndGcp
    false None None 1704067200000 [].

Definition envelope {T : Type} (payload : T) : AxiosResponse.t (ApiResponse.t T) :=
  AxiosResponse.mk 200
    (ApiResponse.mk payload "ok" "2024-01-01T00:00:00.000Z" "req-1").

End Examples.

(** * Properties *)

(** ** The sort *)

Section ArraySortFacts.
Context {A : Type}.
Implicit Types (c : A → A → Z) (l : list A).

Lemma sort_insert_perm c x l : sort_insert c x l ≡ₚ x :: l.
Proof.
  induction l as [|y l IH]; simpl; [done|].
  destruct (0 <? c x y)%Z; [|done].
  rewrite IH. apply Permutation_swap.
Qed.

Lemma Array_sort_perm c l : Array_sort c l ≡ₚ l.
Proof.
  induction l as [|x l IH]; simpl; [done|].
  rewrite sort_insert_perm. by f_equiv.
Qed.

Lemma Array_sort_elem_of c l x : x ∈ Array_sort c l ↔ x ∈ l.
Proof. by rewrite Array_sort_perm. Qed.

Lemma Array_sort_length c l : length (Array_sort c l) = length l.
Proof. by rewrite Array_sort_perm. Qed.

Lemma Array_sort_ext c c' l :
  (∀ a b, c a b = c' a b) → Array_sort c l = Array_sort c' l.
Proof.
  intros Hext. induction l as [|x l IH]; simpl; [done|].
  rewrite IH. generalize (Array_sort c' l). intros s.
  induction s as [|y s IHs]; simpl; [done|].
  by rewrite Hext, IHs.
Qed.

(** Inserting into a sorted list keeps it sorted, provided the
    comparison function behaves as an order on the elements involved. *)
Lemma sort_insert_sorted c x l :
  (∀ y, y ∈ l → (0 < c x y)%Z → (c y x ≤ 0)%Z) →
  (∀ y z, y ∈ l → z ∈ l → (c x y ≤ 0)%Z → (c y z ≤ 0)%Z → (c x z ≤ 0)%Z) →
  StronglySorted (λ a b, (c a b ≤ 0)%Z) l →
  StronglySorted (λ a b, (c a b ≤ 0)%Z) (sort_insert c x l).
Proof.
  intros Hanti Htrans Hs.
  induction l as [|y l IH]; simpl; [by repeat constructor|].
  apply StronglySorted_inv in Hs as [Hs Hy].
  destruct (0 <? c x y)%Z eqn:Hc.
  - apply Z.ltb_lt in Hc. constructor.
    + apply IH; [| |done].
      * intros z Hz. apply Hanti. by right.
      * intros z w Hz Hw. apply Htrans; by right.
    + rewrite sort_insert_perm. constructor; [|done].
      apply Hanti; [left|done].
  - apply Z.ltb_ge in Hc. constructor; [by constructor|].
    constructor; [done|].
    rewrite Forall_forall in Hy. apply Forall_forall. intros z Hz.
    apply (Htrans y z); [left|by right|done|by apply Hy].
Qed.

Lemma Array_sort_sorted c l :
  (∀ a b, a ∈ l → b ∈ l → (0 < c a b)%Z → (c b a ≤ 0)%Z) →
  (∀ a b d, a ∈ l → b ∈ l → d ∈ l →
     (c a b ≤ 0)%Z → (c b d ≤ 0)%Z → (c a d ≤ 0)%Z) →
  StronglySorted (λ a b, (c a b ≤ 0)%Z) (Array_sort c l).
Proof.
  induction l as [|x l IH]; intros Hanti Htrans; simpl; [constructor|].
  apply sort_insert_sorted.
  - intros y Hy%Array_sort_elem_of. apply Hanti; [left|by right].
  - intros y z Hy%Array_sort_elem_of Hz%Array_sort_elem_of.
    apply Htrans; [left|by right|by right].
  - apply IH.
    + intros a b Ha Hb. apply Hanti; by right.
    + intros a b d Ha Hb Hd. apply Htrans; by right.
Qed.

(** The sort is stable: elements that the comparison function never
    puts after one another keep their input order.  This holds in
    particular for any set of mutually tied elements. *)
Lemma sort_insert_stable c (P : A → Prop) `{∀ x, Decision (P x)} x l :
  (∀ y, P x → P y → (c x y ≤ 0)%Z) →
  filter P (sort_insert c x l) = filter P (x :: l).
Proof.
  intros Hkeep. induction l as [|y l IH]; simpl; [done|].
  destruct (0 <? c x y)%Z eqn:Hc; [|done].
  apply Z.ltb_lt in Hc. rewrite !filter_cons in *. rewrite IH.
  destruct (decide (P x)) as [Hx|], (decide (P y)) as [Hy|]; try done.
  specialize (Hkeep y Hx Hy). lia.
Qed.

Lemma Array_sort_stable c (P : A → Prop) `{∀ x, Decision (P x)} l :
  (∀ x y, P x → P y → (c x y ≤ 0)%Z) →
  filter P (Array_sort c l) = filter P l.
Proof.
  intros Hkeep. induction l as [|x l IH]; simpl; [done|].
  rewrite sort_insert_stable; [|auto]. by rewrite !filter_cons, IH.
Qed.

(** Reversing a sorted list sorts it for the converse relation. *)
Lemma StronglySorted_reverse (R : relation A) l :
  StronglySorted R l → StronglySorted (flip R) (reverse l).
Proof.
  induction 1 as [|x l Hs IH Hx]; [constructor|].
  rewrite reverse_cons. apply StronglySorted_app_2; [|done|by repeat constructor].
  intros y z Hy ->%list_elem_of_singleton. rewrite elem_of_reverse in Hy.
  rewrite Forall_forall in Hx. unfold flip. by apply Hx.
Qed.

(** A property of all pairs of positions survives a permutation when
    the property is symmetric. *)
Lemma ForallOrdPairs_perm (R : relation A) l l' :
  (∀ a b, R a b → R b a) → l ≡ₚ l' → ForallOrdPairs R l → ForallOrdPairs R l'.
Proof.
  intros Hsym Hp. induction Hp as [|x l l' Hp IH|x y l|l l' l'' _ IH1 _ IH2];
    intros Hf; [done| | |auto].
  - inversion_clear Hf as [|? ? Hx Hl]. constructor; [by rewrite <-Hp|auto].
  - inversion_clear Hf as [|? ? Hy Hl]. inversion_clear Hl as [|? ? Hx Hl'].
    inversion_clear Hy as [|? ? Hyx Hyl].
    constructor; [constructor; auto|by constructor].
Qed.

Lemma ForallOrdPairs_impl (R R' : relation A) l :
  (∀ a b, R a b → R' a b) → ForallOrdPairs R l → ForallOrdPairs R' l.
Proof.
  intros HR. induction 1 as [|x l Hx _ IH]; constructor; [|done].
  eapply Forall_impl; [exact Hx|]. auto.
Qed.

End ArraySortFacts.

Section StrictSortFacts.
Context {A : Type} (c : A → A → Z).
Hypothesis c_flip : ∀ a b, (0 < c a b)%Z → (c b a < 0)%Z.
Hypothesis c_trans : ∀ a b d, (c a b < 0)%Z → (c b d < 0)%Z → (c a d < 0)%Z.
Hypothesis c_tie_sym : ∀ a b, c a b = 0%Z → c b a = 0%Z.

(** When no two positions of the input tie, the output is strictly
    increasing for the comparison function. *)
Lemma Array_sort_strict (l : list A) :
  ForallOrdPairs (λ a b, c a b ≠ 0%Z) l →
  StronglySorted (λ a b, (c a b < 0)%Z) (Array_sort c l).
Proof.
  intros Hl.
  assert (Hne : ∀ a b, a ∈ l → b ∈ l → a = b ∨ c a b ≠ 0%Z).
  { intros a b Ha%list_elem_of_In Hb%list_elem_of_In.
    destruct (ForallOrdPairs_In Hl a b Ha Hb) as [?|[?|Hba]]; [by left|by right|].
    right. intros Hab. by apply Hba, c_tie_sym. }
  assert (Hs : StronglySorted (λ a b, (c a b ≤ 0)%Z) (Array_sort c l)).
  { apply Array_sort_sorted.
    - intros a b _ _ Hab. apply c_flip in Hab. lia.
    - intros a b d Ha Hb Hd Hab Hbd.
      destruct (Hne a b Ha Hb) as [->|Hab']; [done|].
      destruct (Hne b d Hb Hd) as [->|Hbd']; [done|].
      assert (c a d < 0)%Z; [|lia]. apply (c_trans a b d); lia. }
  assert (Hout : ForallOrdPairs (λ a b, c a b ≠ 0%Z) (Array_sort c l)).
  { apply (ForallOrdPairs_perm _ l); [|by rewrite Array_sort_perm|done].
    intros a b Hab Hba. by apply Hab, c_tie_sym. }
  revert Hs Hout. generalize (Array_sort c l). intros s Hs.
  induction Hs as [|x s Hs IH Hx]; intros Hout; [constructor|].
  inversion_clear Hout as [|? ? Hx' Hout']. constructor; [by apply IH|].
  rewrite Forall_forall in *. intros y Hy.
  specialize (Hx y Hy). specialize (Hx' y Hy). simpl in *. lia.
Qed.

End StrictSortFacts.

(** ** Orders on sort keys *)

Lemma number_lt_irrefl x : number_lt x x = false.
Proof. destruct x; simpl; [apply Z.ltb_irrefl|done]. Qed.

Lemma number_lt_trans x y z :
  number_lt x y = true → number_lt y z = true → number_lt x z = true.
Proof.
  destruct x, y, z; simpl; try done.
  rewrite !Z.ltb_lt. lia.
Qed.

Lemma string_ltb_not_le s1 s2 : String.ltb s1 s2 = true ↔ ¬ String.le s2 s1.
Proof.
  unfold String.le, String.ltb, String.leb.
  rewrite (String.compare_antisym s1 s2).
  destruct (String.compare s2 s1); simpl; naive_solver.
Qed.

Lemma string_ltb_irrefl s : String.ltb s s = false.
Proof.
  apply not_true_is_false. rewrite string_ltb_not_le.
  intros Hs. by apply Hs.
Qed.

Lemma string_ltb_trans s1 s2 s3 :
  String.ltb s1 s2 = true → String.ltb s2 s3 = true → String.ltb s1 s3 = true.
Proof.
  rewrite !string_ltb_not_le. intros H12 H23 H31.
  destruct (total String.le s1 s2) as [Hle|Hle]; [|done].
  apply H23. by trans s1.
Qed.

Section ThreeWayFacts.
Import ViolationsTable.
Context {A : Type} (lt : A → A → bool).
Hypothesis lt_irrefl : ∀ a, lt a a = false.
Hypothesis lt_trans : ∀ a b d, lt a b = true → lt b d = true → lt a d = true.

Lemma lt_asym a b : lt a b = true → lt b a = false.
Proof.
  intros Hab. apply not_true_is_false. intros Hba.
  pose proof (lt_trans _ _ _ Hab Hba) as Haa. by rewrite lt_irrefl in Haa.
Qed.

Lemma threeWay_neg d a b :
  (threeWay lt d a b < 0)%Z ↔
  if d is asc then lt a b = true else lt b a = true.
Proof.
  unfold threeWay. destruct d, (lt a b) eqn:Hab, (lt b a) eqn:Hba;
    try (apply lt_asym in Hab; congruence); split; (lia || done).
Qed.

Lemma threeWay_desc a b : threeWay lt desc a b = threeWay lt asc b a.
Proof.
  unfold threeWay. destruct (lt a b) eqn:Hab, (lt b a) eqn:Hba; try done.
  apply lt_asym in Hab. congruence.
Qed.

Lemma threeWay_opp d a b : threeWay lt d b a = (- threeWay lt d a b)%Z.
Proof.
  unfold threeWay. destruct d, (lt a b) eqn:Hab, (lt b a) eqn:Hba; try done;
    apply lt_asym in Hab; congruence.
Qed.

Lemma threeWay_tie d a b :
  threeWay lt d a b = 0%Z ↔ threeWay lt asc a b = 0%Z.
Proof. unfold threeWay. destruct d, (lt a b), (lt b a); done. Qed.

Lemma threeWay_trans d a b e :
  (threeWay lt d a b < 0)%Z → (threeWay lt d b e < 0)%Z →
  (threeWay lt d a e < 0)%Z.
Proof. rewrite !threeWay_neg. destruct d; eauto. Qed.

(** Sorting ascending, then sorting the result descending, reverses it
    when no two positions tie. *)
Lemma threeWay_resort (l : list A) :
  ForallOrdPairs (λ a b, threeWay lt asc a b ≠ 0%Z) l →
  Array_sort (threeWay lt desc) (Array_sort (threeWay lt asc) l)
  = reverse (Array_sort (threeWay lt asc) l).
Proof.
  intros Hl.
  assert (Hstrict : ∀ d s, ForallOrdPairs (λ a b, threeWay lt asc a b ≠ 0%Z) s →
            StronglySorted (λ a b, (threeWay lt d a b < 0)%Z)
                           (Array_sort (threeWay lt d) s)).
  { intros d s Hs. apply Array_sort_strict.
    - intros a b. rewrite threeWay_opp. lia.
    - apply threeWay_trans.
    - intros a b. rewrite threeWay_opp. lia.
    - eapply ForallOrdPairs_impl; [|exact Hs].
      intros a b. simpl. by rewrite (threeWay_tie d). }
  apply (StronglySorted_unique_strong (λ a b, (threeWay lt desc a b < 0)%Z)).
  - intros a b _ _ Hab Hba. rewrite threeWay_opp in Hba. lia.
  - apply Hstrict. apply (ForallOrdPairs_perm _ l); [|by rewrite Array_sort_perm|done].
    intros a b. rewrite (threeWay_opp asc a b). lia.
  - rewrite <-(list_fmap_id (reverse _)).
    eapply StronglySorted_fmap; [|apply StronglySorted_reverse, (Hstrict asc), Hl].
    intros a b. unfold flip. simpl. by rewrite threeWay_desc.
  - by rewrite Array_sort_perm, reverse_Permutation.
Qed.

End ThreeWayFacts.

(** ** Violations table: sorting *)

Section ViolationsTableSort.
Import PolicyViolation ViolationsTable.
Context `{JsHost}.

Lemma compareFn_threeWay f d a b :
  compareFn f d a b = threeWay (keyLess f) d a b.
Proof. by destruct f. Qed.

Lemma keyLess_irrefl f a : keyLess f a a = false.
Proof.
  destruct f; simpl;
    auto using number_lt_irrefl, Z.ltb_irrefl, string_ltb_irrefl.
Qed.

Lemma keyLess_trans f a b d :
  keyLess f a b = true → keyLess f b d = true → keyLess f a d = true.
Proof.
  destruct f; simpl; eauto using number_lt_trans, string_ltb_trans.
  rewrite !Z.ltb_lt. lia.
Qed.

Lemma sortedList_threeWay f d vs :
  sortedList f d vs = Array_sort (threeWay (keyLess f) d) vs.
Proof. apply Array_sort_ext, compareFn_threeWay. Qed.

Lemma sortedList_perm f d vs : sortedList f d vs ≡ₚ vs.
Proof. apply Array_sort_perm. Qed.

(** The severity comparison, read on ranks. *)
Lemma compareFn_severity_desc a b :
  (compareFn F_severity desc a b ≤ 0)%Z ↔
  (severityOrder (severity b) ≤ severityOrder (severity a))%Z.
Proof.
  simpl. unfold threeWay.
  destruct (Z.ltb_spec (severityOrder (severity a)) (severityOrder (severity b)));
  destruct (Z.ltb_spec (severityOrder (severity b)) (severityOrder (severity a)));
    lia.
Qed.

Lemma severityOrder_inj : Inj (=) (=) severityOrder.
Proof. intros [] []; simpl; (done || lia). Qed.

Lemma sortedList_severity_desc vs :
  StronglySorted
    (λ a b, (severityOrder (severity b) ≤ severityOrder (severity a))%Z)
    (sortedList F_severity desc vs).
Proof.
  rewrite <-(list_fmap_id (sortedList _ _ _)).
  eapply StronglySorted_fmap; [|apply Array_sort_sorted].
  - intros a b. simpl. apply compareFn_severity_desc.
  - intros a b _ _. pose proof (compareFn_severity_desc a b).
    pose proof (compareFn_severity_desc b a). lia.
  - intros a b d _ _ _. rewrite !compareFn_severity_desc. lia.
Qed.

(** A list of severities in descending rank is the only descending
    arrangement of its elements, so it is what the sort produces. *)
Lemma sortedList_severity_arrangement vs (expected : list Severity) :
  StronglySorted (λ x y, (severityOrder y ≤ severityOrder x)%Z) expected →
  severity <$> vs ≡ₚ expected →
  severity <$> sortedList F_severity desc vs = expected.
Proof.
  intros Hexp Hperm.
  apply (StronglySorted_unique_strong (λ x y, (severityOrder y ≤ severityOrder x)%Z));
    [| |done|].
  - intros x y _ _ Hxy Hyx. apply severityOrder_inj. lia.
  - eapply StronglySorted_fmap; [|apply sortedList_severity_desc]. done.
  - by rewrite sortedList_perm.
Qed.

(** C1. Sorting by severity in descending direction orders the rows by
    the rank CRITICAL(4) > HIGH(3) > MEDIUM(2) > LOW(1): ranks never
    increase along the output; a list holding exactly one violation of
    each level comes out as CRITICAL, HIGH, MEDIUM, LOW; and severities
    LOW, CRITICAL, HIGH come out as CRITICAL, HIGH, LOW. *)
Theorem sort_by_severity_descending (violations : list PolicyViolation.t) :
  StronglySorted
    (λ a b, (severityOrder (severity b) ≤ severityOrder (severity a))%Z)
    (sortedList F_severity desc violations)
  ∧ (severity <$> violations ≡ₚ [CRITICAL; HIGH; MEDIUM; LOW] →
     severity <$> sortedList F_severity desc violations
     = [CRITICAL; HIGH; MEDIUM; LOW])
  ∧ (severity <$> violations = [LOW; CRITICAL; HIGH] →
     severity <$> sortedList F_severity desc violations
     = [CRITICAL; HIGH; LOW]).
Proof.
  split; [apply sortedList_severity_desc|]. split.
  - apply sortedList_severity_arrangement.
    repeat constructor; simpl; lia.
  - intros Hsev. apply sortedList_severity_arrangement.
    + repeat constructor; simpl; lia.
    + rewrite Hsev. apply (Permutation_cons_append [CRITICAL; HIGH] LOW).
Qed.

(** C2, as the table implements it.  For every sort field, when no two
    positions of the list tie on the field's key (the keys differ and,
    for the detection date, both timestamps can be read), sorting
    ascending and then sorting that result descending yields the exact
    reverse sequence, and the ascending result holds the same rows as
    the input. *)
Theorem resort_descending_is_reverse (sortField : SortField)
    (violations : list PolicyViolation.t) :
  ForallOrdPairs (λ a b, ¬ tied sortField a b) violations →
  sortedList sortField desc (sortedList sortField asc violations)
  = reverse (sortedList sortField asc violations)
  ∧ sortedList sortField asc violations ≡ₚ violations.
Proof.
  intros Hties. split; [|apply sortedList_perm].
  rewrite !sortedList_threeWay.
  apply threeWay_resort.
  - apply keyLess_irrefl.
  - apply keyLess_trans.
  - eapply ForallOrdPairs_impl; [|exact Hties].
    intros a b. unfold tied. by rewrite compareFn_threeWay.
Qed.

Lemma string_ltb_tie s1 s2 :
  String.ltb s1 s2 = false → String.ltb s2 s1 = false → s1 = s2.
Proof.
  unfold String.ltb. rewrite (String.compare_antisym s2 s1).
  destruct (String.compare s1 s2) eqn:Hc; simpl; try done.
  intros _ _. by apply String.compare_eq_iff.
Qed.

Lemma threeWay_string_tie d s1 s2 :
  threeWay String.ltb d s1 s2 = 0%Z ↔ s1 = s2.
Proof.
  unfold threeWay. split.
  - destruct (String.ltb s1 s2) eqn:H12, (String.ltb s2 s1) eqn:H21;
      destruct d; try done; intros _; by apply string_ltb_tie.
  - intros ->. by rewrite string_ltb_irrefl.
Qed.

(** Ties are exactly equal keys for the textual fields and the status. *)
Lemma tied_policy_name a b :
  tied F_policy_name a b ↔ toLowerCase (policy_name a) = toLowerCase (policy_name b).
Proof. apply threeWay_string_tie. Qed.

Lemma tied_resource_name a b :
  tied F_resource_name a b ↔
  toLowerCase (CloudResource.name (resource a))
  = toLowerCase (CloudResource.name (resource b)).
Proof. apply threeWay_string_tie. Qed.

Lemma tied_status a b : tied F_status a b ↔ status a = status b.
Proof.
  unfold tied. simpl. rewrite threeWay_string_tie.
  split; [|by intros ->]. by destruct (status a), (status b).
Qed.

(** Ties are exactly equal keys for the severity field. *)
Lemma tied_severity a b : tied F_severity a b ↔ severity a = severity b.
Proof.
  unfold tied. simpl. unfold threeWay. split.
  - intros Hc. apply severityOrder_inj.
    destruct (Z.ltb_spec (severityOrder (severity a)) (severityOrder (severity b)));
    destruct (Z.ltb_spec (severityOrder (severity b)) (severityOrder (severity a)));
      lia.
  - intros ->. by rewrite Z.ltb_irrefl.
Qed.

(** Ties on the detection time are equal time values, or a timestamp
    the host cannot read. *)
Lemma tied_detected_at a b :
  tied F_detected_at a b ↔
  Date_getTime (detected_at a) = Date_getTime (detected_at b)
  ∨ Date_getTime (detected_at a) = None
  ∨ Date_getTime (detected_at b) = None.
Proof.
  unfold tied. simpl. unfold threeWay, number_lt.
  destruct (Date_getTime (detected_at a)) as [x|],
           (Date_getTime (detected_at b)) as [y|]; [|naive_solver..].
  destruct (Z.ltb_spec x y), (Z.ltb_spec y x); try lia.
  - split; [done|]. intros [[=]|[|]]; [lia|done..].
  - split; [done|]. intros [[=]|[|]]; [lia|done..].
  - split; [|done]. intros _. left. f_equal. lia.
Qed.

(** C10. The sort works on a copy: the array it returns is a new one
    holding a permutation of the input's elements (the sorted list), and
    the input array, like every other array already in the store, is
    left as it was. *)
Theorem sortedViolations_leaves_input (sortField : SortField)
    (sortDirection : SortDirection) (violations : ref)
    (h : gmap ref (list PolicyViolation.t)) (vs : list PolicyViolation.t) :
  h !! violations = Some vs →
  ∃ sorted h',
    sortedViolations sortField sortDirection violations h = Some (sorted, h')
    ∧ h' !! sorted = Some (sortedList sortField sortDirection vs)
    ∧ sortedList sortField sortDirection vs ≡ₚ vs
    ∧ sorted ≠ violations
    ∧ h' !! violations = Some vs
    ∧ ∀ r, r ≠ sorted → h' !! r = h !! r.
Proof.
  intros Hvs. unfold sortedViolations, spread, sort_in_place, alloc.
  rewrite Hvs. simpl. rewrite lookup_insert_eq. simpl.
  set (copy := fresh (dom h)).
  assert (Hfresh : h !! copy = None).
  { apply not_elem_of_dom. apply is_fresh. }
  assert (Hne : copy ≠ violations) by congruence.
  eexists _, _. split; [done|]. rewrite insert_insert_eq.
  split; [by rewrite lookup_insert_eq|].
  split; [apply sortedList_perm|]. split; [done|].
  split; [by rewrite lookup_insert_ne|].
  intros r Hr. by rewrite lookup_insert_ne.
Qed.

End ViolationsTableSort.

Section ViolationsTableSortExamples.
Import PolicyViolation ViolationsTable Examples.

Lemma sort_by_severity_descending_witness :
  severity <$> sortedList F_severity desc [vLow; vCritical; vMedium; vHigh]
  = [CRITICAL; HIGH; MEDIUM; LOW]
  ∧ severity <$> sortedList F_severity desc [vLow; vCritical; vHigh]
    = [CRITICAL; HIGH; LOW].
Proof.
  split.
  - apply (sort_by_severity_descending [vLow; vCritical; vMedium; vHigh]).
    apply (bool_decide_unpack _). vm_compute. exact I.
  - apply (sort_by_severity_descending [vLow; vCritical; vHigh]).
    reflexivity.
Defined.

Lemma resort_descending_is_reverse_witness :
  (sortedList F_policy_name desc (sortedList F_policy_name asc [rowA; rowB; rowC])
   = reverse (sortedList F_policy_name asc [rowA; rowB; rowC])
   ∧ sortedList F_policy_name asc [rowA; rowB; rowC] ≡ₚ [rowA; rowB; rowC])
  ∧ (sortedList F_detected_at desc (sortedList F_detected_at asc [rowA; rowB; rowC])
     = reverse (sortedList F_detected_at asc [rowA; rowB; rowC])
     ∧ sortedList F_detected_at asc [rowA; rowB; rowC] ≡ₚ [rowA; rowB; rowC]).
Proof.
  split.
  - apply (resort_descending_is_reverse F_policy_name [rowA; rowB; rowC]).
    repeat constructor; by vm_compute.
  - apply (resort_descending_is_reverse F_detected_at [rowA; rowB; rowC]).
    repeat constructor; by vm_compute.
Defined.

(** A row whose timestamp cannot be read has the key NaN, which is equal
    to no key, yet compares neither before nor after any row: the
    comparison function returns 0 for every pair of the two rows below,
    so both sorts keep the input order and the second is not the reverse
    of the first. *)
Lemma resort_with_unreadable_timestamp :
  Date_getTime (detected_at rowUndated) = None
  ∧ Date_getTime (detected_at rowA) = Some 1704153600000%Z
  ∧ Date_getTime (detected_at rowUndated) ≠ Date_getTime (detected_at rowA)
  ∧ sortedList F_detected_at asc [rowUndated; rowA] = [rowUndated; rowA]
  ∧ sortedList F_detected_at desc (sortedList F_detected_at asc [rowUndated; rowA])
    = [rowUndated; rowA]
  ∧ sortedList F_detected_at desc (sortedList F_detected_at asc [rowUndated; rowA])
    ≠ reverse (sortedList F_detected_at asc [rowUndated; rowA]).
Proof. repeat split; try reflexivity; discriminate. Qed.

Lemma sortedViolations_leaves_input_witness :
  ∃ sorted h',
    sortedViolations F_severity desc 1%positive {[ 1%positive := [vLow; vCritical] ]}
    = Some (sorted, h')
    ∧ h' !! sorted = Some (sortedList F_severity desc [vLow; vCritical])
    ∧ sortedList F_severity desc [vLow; vCritical] ≡ₚ [vLow; vCritical]
    ∧ sorted ≠ 1%positive
    ∧ h' !! 1%positive = Some [vLow; vCritical]
    ∧ ∀ r, r ≠ sorted →
        h' !! r = ({[ 1%positive := [vLow; vCritical] ]} : gmap ref _) !! r.
Proof.
  apply (sortedViolations_leaves_input F_severity desc 1%positive
           {[ 1%positive := [vLow; vCritical] ]} [vLow; vCritical]).
  reflexivity.
Defined.

(** The sort on concrete rows: policy names compare without regard to
    case, statuses by their raw string, dates by time value. *)
Example sort_policy_name_asc :
  violation_id <$> sortedList F_policy_name asc [rowA; rowB; rowC] = ["a"; "c"; "b"].
Proof. reflexivity. Qed.

Example sort_resource_name_asc :
  violation_id <$> sortedList F_resource_name asc [rowA; rowB; rowC] = ["c"; "b"; "a"].
Proof. reflexivity. Qed.

Example sort_status_asc :
  status <$> sortedList F_status asc [vLow; vCritical; vHigh; vMedium]
  = [ACCEPTED; IN_PROGRESS; OPEN; RESOLVED].
Proof. reflexivity. Qed.

Example sort_detected_at_desc :
  violation_id <$> sortedList F_detected_at desc [rowA; rowB; rowC] = ["c"; "a"; "b"].
Proof. reflexivity. Qed.

(** Rows that tie keep their input order, in both directions. *)
Example sort_is_stable_on_ties :
  violation_id <$> sortedList F_detected_at asc [vLow; vCritical; vHigh]
  = ["v-1"; "v-2"; "v-3"]
  ∧ violation_id <$> sortedList F_detected_at desc [vLow; vCritical; vHigh]
    = ["v-1"; "v-2"; "v-3"].
Proof. split; reflexivity. Qed.

End ViolationsTableSortExamples.

(** ** Violations table: selection *)

Section ViolationsTableSelection.
Import PolicyViolation ViolationsTable.
Implicit Types (violations : list PolicyViolation.t) (selected : gset string).

Lemma size_visibleIds violations :
  NoDup (violation_id <$> violations) →
  size (visibleIds violations) = length violations.
Proof.
  intros Hnd. unfold visibleIds.
  rewrite size_list_to_set; [|done]. apply length_fmap.
Qed.

(** With unique ids and no selected id outside the list, the header
    checkbox is checked exactly when every listed row is selected. *)
Lemma selectAllChecked_spec violations selected :
  violations ≠ [] →
  NoDup (violation_id <$> violations) →
  selected ⊆ visibleIds violations →
  selectAllChecked violations selected = true ↔ selected = visibleIds violations.
Proof.
  intros Hne Hnd Hsub. unfold selectAllChecked.
  rewrite andb_true_iff, !bool_decide_eq_true.
  rewrite <-(size_visibleIds violations Hnd). split.
  - intros [Hsize _]. apply set_eq. intros x. split; [set_solver|].
    intros Hx. destruct (decide (x ∈ selected)) as [|Hn]; [done|].
    assert (Hlt : selected ⊂ visibleIds violations).
    { split; [done|]. intros Hsup. by apply Hn, Hsup. }
    apply subset_size in Hlt. lia.
  - intros ->. split; [done|].
    rewrite size_visibleIds; [|done]. destruct violations; [done|simpl; lia].
Qed.



(** ** Violations table: inline status change *)

(** C4. A row shows the status-change control if and only if its status
    is OPEN; when shown, the statuses it can send are exactly
    IN_PROGRESS, RESOLVED and ACCEPTED; a row in any other status shows
    no control and offers no target; OPEN is never a target. *)
Theorem status_control_only_when_open (violation : PolicyViolation.t) :
  (is_Some (statusSelect violation) ↔ status violation = OPEN)
  ∧ (status violation = OPEN →
     statusTargets violation = status_string <$> [IN_PROGRESS; RESOLVED; ACCEPTED])
  ∧ (status violation ≠ OPEN →
     statusSelect violation = None ∧ statusTargets violation = [])
  ∧ status_string OPEN ∉ statusTargets violation.
Proof.
  unfold statusTargets, statusSelect.
  destruct (status violation) eqn:Hst; simpl.
  - split; [by split; eauto|]. split; [done|]. split; [done|].
    rewrite !not_elem_of_cons. repeat split; try done. apply not_elem_of_nil.
  - split; [split; [by intros [? [=]]|done]|].
    split; [done|]. split; [done|]. apply not_elem_of_nil.
  - split; [split; [by intros [? [=]]|done]|].
    split; [done|]. split; [done|]. apply not_elem_of_nil.
  - split; [split; [by intros [? [=]]|done]|].
    split; [done|]. split; [done|]. apply not_elem_of_nil.
Qed.

End ViolationsTableSelection.

Section ViolationsTableSelectionExamples.
Import PolicyViolation ViolationsTable Examples.



Lemma status_control_only_when_open_witness :
  statusTargets vLow = ["IN_PROGRESS"; "RESOLVED"; "ACCEPTED"]
  ∧ statusSelect vCritical = None ∧ statusTargets vCritical = [].
Proof.
  split.
  - apply (status_control_only_when_open vLow). reflexivity.
  - apply (status_control_only_when_open vCritical). discriminate.
Defined.

End ViolationsTableSelectionExamples.

(** ** API client *)

Section ApiClientFacts.
Import ComplianceApiService.


Lemma or_else_nonempty x dflt : dflt ≠ "" → or_else x dflt ≠ "".
Proof.
  intros Hd. destruct x as [s|]; simpl; [|done].
  destruct (String.eqb_spec s ""); done.
Qed.


(** A payload without a code or a message falls back to the HTTP status
    and to the client's own message. *)
Lemma handleApiError_fallback error response :
  AxiosError.response error = Some response →
  ErrorPayload.code (ErrorResponse.data response) = None →
  ErrorPayload.message (ErrorResponse.data response) = None →
  ApiError.code (handleApiError error)
  = "HTTP_" +:+ pretty (ErrorResponse.status response)
  ∧ ApiError.message (handleApiError error) = AxiosError.message error.
Proof. unfold handleApiError. intros -> Hc Hm. simpl. by rewrite Hc, Hm. Qed.

Section Requests.
Context (apiKey : option string).

Lemma request_reports {R T : Type}
    (adapter : AxiosRequestConfig.t → Settled AxiosError.t (AxiosResponse.t R))
    (extract : AxiosResponse.t R → T) (config : AxiosRequestConfig.t) :
  await (request apiKey adapter config) (λ response, Fulfilled (extract response))
  = reportOf adapter (requestInterceptor apiKey config) extract.
Proof. unfold await, request, then_, reportOf. by destruct (adapter _). Qed.

(** The health check never rejects: it fulfils with [true] for a
    response of status 200 to its own request and with [false] for any
    other outcome of that request. *)
Lemma healthCheck_never_rejects {R : Type}
    (adapter : AxiosRequestConfig.t → Settled AxiosError.t (AxiosResponse.t R)) :
  healthCheck apiKey adapter
  = Fulfilled match adapter (requestInterceptor apiKey
                               (AxiosRequestConfig.mk "get" "/health" [] [] []))
              with
              | Fulfilled response =>
                  bool_decide (AxiosResponse.status response = 200%Z)
              | Rejected _ => false
              end.
Proof. unfold healthCheck, get, request, then_. by destruct (adapter _). Qed.

(** C6, as the client implements it.  Each operation other than the
    health check sends one request, named below with its method, URL,
    query and body, and reports the outcome of that very request: it
    fulfils with the payload unwrapped from the response envelope (with
    nothing, for the status update) or rejects with the normalised error
    of the failure; none of them replaces a failure by a value.  The
    health check is the exception: it always fulfils, with [false] when
    its request fails. *)
Theorem operations_settle {R T : Type}
    (adapter : AxiosRequestConfig.t →
               Settled AxiosError.t (AxiosResponse.t (ApiResponse.t T)))
    (plain : AxiosRequestConfig.t → Settled AxiosError.t (AxiosResponse.t R)) :
  (∀ scanRequest,
     startComplianceScan apiKey adapter scanRequest
     = reportOf adapter
         (requestInterceptor apiKey
            (AxiosRequestConfig.mk "post" "/scan" [] scanRequest []))
         payloadOf)
  ∧ (∀ scanId,
       getScanStatus apiKey adapter scanId
       = reportOf adapter
           (requestInterceptor apiKey
              (AxiosRequestConfig.mk "get" ("/scan/" +:+ scanId +:+ "/status") [] [] []))
           payloadOf)
  ∧ (∀ scanId,
       getScanResults apiKey adapter scanId
       = reportOf adapter
           (requestInterceptor apiKey
              (AxiosRequestConfig.mk "get" ("/scan/" +:+ scanId +:+ "/results") [] [] []))
           payloadOf)
  ∧ (∀ filters,
       getDashboardMetrics apiKey adapter filters
       = reportOf adapter
           (requestInterceptor apiKey
              (AxiosRequestConfig.mk "get" "/dashboard/metrics"
                 match filters with Some f => [("filters", f)] | None => [] end
                 [] []))
           payloadOf)
  ∧ (∀ page page_size sort_by sort_order filters,
       getViolations apiKey adapter page page_size sort_by sort_order filters
       = reportOf adapter
           (requestInterceptor apiKey
              (AxiosRequestConfig.mk "get" "/violations"
                 ([ ("page",
                     pretty match page with
                            | Some p => if (p =? 0)%Z then 1%Z else p
                            | None => 1%Z
                            end);
                    ("page_size",
                     pretty match page_size with
                            | Some p => if (p =? 0)%Z then 50%Z else p
                            | None => 50%Z
                            end);
                    ("sort_by", or_else sort_by "detected_at");
                    ("sort_order", or_else sort_order "desc") ]
                  ++ match filters with Some f => [("filters", f)] | None => [] end)
                 [] []))
           payloadOf)
  ∧ getPolicies apiKey adapter
    = reportOf adapter
        (requestInterceptor apiKey (AxiosRequestConfig.mk "get" "/policies" [] [] []))
        payloadOf
  ∧ (∀ options,
       getComplianceTrend apiKey adapter options
       = reportOf adapter
           (requestInterceptor apiKey
              (AxiosRequestConfig.mk "get" "/dashboard/trend" options [] []))
           payloadOf)
  ∧ (∀ violationId status notes,
       updateViolationStatus apiKey plain violationId status notes
       = reportOf plain
           (requestInterceptor apiKey
              (AxiosRequestConfig.mk "patch"
                 ("/violations/" +:+ violationId +:+ "/status") []
                 (("status", status)
                    :: match notes with Some n => [("notes", n)] | None => [] end)
                 []))
           (λ _, tt))
  ∧ healthCheck apiKey plain
    = Fulfilled match plain (requestInterceptor apiKey
                               (AxiosRequestConfig.mk "get" "/health" [] [] []))
                with
                | Fulfilled response =>
                    bool_decide (AxiosResponse.status response = 200%Z)
                | Rejected _ => false
                end.
Proof.
  repeat split; intros;
    try (unfold startComplianceScan, getScanStatus, getScanResults,
           getDashboardMetrics, getViolations, getPolicies, getComplianceTrend,
           updateViolationStatus, get, post, patch, unwrap;
         by rewrite request_reports).
  apply healthCheck_never_rejects.
Qed.

End Requests.

End ApiClientFacts.

Section ApiClientExamples.
Import ComplianceApiService Examples.


Example handleApiError_bare_502 :
  handleApiError bareServerError
  = ApiError.mk "HTTP_502" "Request failed with status code 502" None "unknown".
Proof. reflexivity. Qed.

(** The health check against a backend that cannot be reached: the
    failure is caught and the operation fulfils with [false]; no error,
    normalised or not, reaches the caller. *)
Lemma healthCheck_swallows_failure :
  healthCheck None (λ _, Rejected networkDown : Settled AxiosError.t (AxiosResponse.t string))
  = Fulfilled false
  ∧ ∀ error,
      healthCheck None
        (λ _, Rejected networkDown : Settled AxiosError.t (AxiosResponse.t string))
      ≠ Rejected error.
Proof. split; [reflexivity|discriminate]. Qed.

(** The same backend seen through another operation: the failure
    reaches the caller as a normalised error. *)
Example getScanStatus_rejects :
  getScanStatus None
    (λ _, Rejected networkDown
          : Settled AxiosError.t (AxiosResponse.t (ApiResponse.t ComplianceScanResult.t)))
    "scan-1"
  = Rejected (ApiError.mk "NETWORK_ERROR" "Unable to connect to compliance service"
                None "unknown").
Proof. reflexivity. Qed.

End ApiClientExamples.

(** ** Scan progress: percentage *)

Section ScanProgressPercentage.
Import ComplianceScanResult ScanProgress ScanProgressCounts.

Lemma allPercentagesAgree_200 : allPercentagesAgree 200 = true.
Proof. vm_compute. reflexivity. Qed.

(** What the exhaustive comparison up to a bound gives for each pair of
    counts below it. *)
Lemma allPercentagesAgree_spec (bound : nat) (scanned total : Z) :
  allPercentagesAgree bound = true →
  (0 < total ≤ Z.of_nat bound)%Z → (0 ≤ scanned ≤ total)%Z →
  percentageAgrees scanned total = true.
Proof.
  unfold allPercentagesAgree. intros Hall Ht Hs.
  rewrite forallb_forall in Hall.
  assert (In (Z.to_nat (total - 1)) (seq 0 bound)) as Hin
    by (apply in_seq; lia).
  apply Hall in Hin. rewrite forallb_forall in Hin.
  assert (In (Z.to_nat scanned) (seq 0 (S (S (Z.to_nat (total - 1))))))
    as Hin' by (apply in_seq; lia).
  apply Hin in Hin'.
  replace (Z.of_nat (S (Z.to_nat (total - 1)))) with total in Hin' by lia.
  by replace (Z.of_nat (Z.to_nat scanned)) with scanned in Hin' by lia.
Qed.

(** For integral counts with a total of at most 200 the component shows
    the percentage of [binary64_roundedPercentage]. *)
Lemma shownPercentage_upto_200 (scanned total : Z) :
  (0 < total ≤ 200)%Z → (0 ≤ scanned ≤ total)%Z →
  shownPercentage scanned total
  = countOf (binary64_roundedPercentage scanned total).
Proof.
  intros Ht Hs. apply FloatAxioms.Leibniz.eqb_spec.
  apply (allPercentagesAgree_spec 200 scanned total allPercentagesAgree_200);
    lia.
Qed.

(** Every pair of [lostHalves] lies exactly halfway between two
    integers. *)
Lemma lostHalves_halfway (scanned total : Z) :
  (scanned, total) ∈ lostHalves → isHalfway scanned total = true.
Proof.
  unfold lostHalves. rewrite !elem_of_cons, elem_of_nil.
  intros H. repeat destruct H as [H|H]; try done; by inversion H.
Qed.

(** C7, with the arithmetic the component uses.  The displayed
    percentage is [Math.round(scanned / total * 100)], quotient and
    product taken in binary64 arithmetic, when the total is positive,
    and 0 when the total is 0 (more generally, when it is not positive),
    whatever the scanned count; a total of 200 with 50 scanned gives 25.
    For integral counts with [0 <= scanned <= total <= 200] the result
    is the exact percentage rounded to the nearest integer, halves
    upwards, except at the eight pairs of [lostHalves], all of them
    exact halves, where it is one less. *)
Theorem progressPercentage_spec (scan : ComplianceScanResult.t) :
  (PrimFloat.ltb 0 (total_resources scan) = true →
   progressPercentage scan
   = Math_round (scanned_resources scan / total_resources scan * 100)%float)
  ∧ (total_resources scan = 0%float → progressPercentage scan = 0%float)
  ∧ (PrimFloat.ltb 0 (total_resources scan) = false →
     progressPercentage scan = 0%float)
  ∧ (total_resources scan = 200%float → scanned_resources scan = 50%float →
     progressPercentage scan = 25%float)
  ∧ (∀ scanned total : Z,
       (0 < total ≤ 200)%Z → (0 ≤ scanned ≤ total)%Z →
       total_resources scan = countOf total →
       scanned_resources scan = countOf scanned →
       progressPercentage scan
       = countOf (binary64_roundedPercentage scanned total)
       ∧ ((scanned, total) ∉ lostHalves →
          progressPercentage scan
          = countOf (spec_roundedPercentage scanned total))
       ∧ ((scanned, total) ∈ lostHalves →
          isHalfway scanned total = true
          ∧ progressPercentage scan
            = countOf (spec_roundedPercentage scanned total - 1))).
Proof.
  unfold progressPercentage. split; [|split; [|split; [|split]]].
  - by intros ->.
  - by intros ->.
  - by intros ->.
  - intros -> ->. reflexivity.
  - intros scanned total Ht Hs -> ->.
    fold (shownPercentage scanned total).
    rewrite (shownPercentage_upto_200 scanned total Ht Hs).
    unfold binary64_roundedPercentage.
    split; [done|]. split; intros Hin.
    + by rewrite bool_decide_eq_false_2.
    + split; [by apply lostHalves_halfway|].
      by rewrite bool_decide_eq_true_2.
Qed.

End ScanProgressPercentage.

Section ScanProgressPercentageExamples.
Import ComplianceScanResult ScanProgress ScanProgressCounts Examples.

Lemma progressPercentage_spec_witness :
  progressPercentage (scanWith running 200 50) = 25%float
  ∧ progressPercentage (scanWith running 0 50) = 0%float
  ∧ progressPercentage (scanWith running 3 2) = 67%float
  ∧ progressPercentage (scanWith running 2 1) = 50%float
  ∧ progressPercentage (scanWith running 200 57) = 28%float.
Proof.
  split; [|split; [|split; [|split]]].
  - apply (progressPercentage_spec (scanWith running 200 50)); reflexivity.
  - apply (progressPercentage_spec (scanWith running 0 50)); reflexivity.
  - apply (proj1 (proj2 (proj2 (proj2 (proj2
             (progressPercentage_spec (scanWith running 3 2))))) 2%Z 3%Z
             ltac:(lia) ltac:(lia) eq_refl eq_refl)).
  - apply (proj1 (proj2 (proj2 (proj2 (proj2
             (progressPercentage_spec (scanWith running 2 1))))) 1%Z 2%Z
             ltac:(lia) ltac:(lia) eq_refl eq_refl)).
  - apply (proj1 (proj2 (proj2 (proj2 (proj2
             (progressPercentage_spec (scanWith running 200 57))))) 57%Z 200%Z
             ltac:(lia) ltac:(lia) eq_refl eq_refl)).
Defined.

(** Read in exact arithmetic, 29 of 200 is 14.5 per cent and rounds to
    15; the component shows 14, as the binary64 product is the number
    printed 14.499999999999998. *)
Lemma progressPercentage_below_exact_rounding :
  spec_roundedPercentage 29 200 = 15%Z
  ∧ isHalfway 29 200 = true
  ∧ (29 / 200 * 100 = 0x1.cffffffffffffp+3)%float
  ∧ progressPercentage (scanWith running 200 29) = 14%float
  ∧ progressPercentage (scanWith running 200 29)
    ≠ countOf (spec_roundedPercentage 29 200).
Proof.
  repeat split; try reflexivity.
  intros H. apply (f_equal Prim2SF) in H. vm_compute in H. discriminate.
Qed.

(** [Math_round] on the cases that tell rounding rules apart; the two
    hexadecimal arguments are the numbers printed 0.49999999999999994
    and 66.66666666666667. *)
Example Math_round_ties :
  Math_round 2.5 = 3%float ∧ Math_round (-2.5) = (-2)%float
  ∧ Math_round 0.5 = 1%float ∧ Math_round (-0.5) = neg_zero
  ∧ Math_round 0x1.fffffffffffffp-2 = 0%float
  ∧ Math_round 0x1.0aaaaaaaaaaabp+6 = 67%float
  ∧ Math_round infinity = infinity ∧ Math_round nan = nan.
Proof. repeat split; reflexivity. Qed.

(** The quotient and the product are taken in binary64 arithmetic before
    rounding: 29 of 200 gives the number printed 14.499999999999998,
    which rounds to 14. *)
Example progressPercentage_29_of_200 :
  (29 / 200 * 100 = 0x1.cffffffffffffp+3)%float
  ∧ progressPercentage (scanWith running 200 29) = 14%float.
Proof. split; reflexivity. Qed.

Example progressPercentage_complete :
  progressPercentage (scanWith completed 1234 1234) = 100%float.
Proof. reflexivity. Qed.

End ScanProgressPercentageExamples.

(** ** Scan progress: polling and the completion callback *)

Section ScanProgressMachine.
Import ComplianceScanResult ScanProgress.
Context (onScanComplete : bool).

Lemma pollingEffect_status a b : status a = status b → pollingEffect a = pollingEffect b.
Proof. unfold pollingEffect. by intros ->. Qed.

Lemma run_app st events1 events2 :
  run onScanComplete st (events1 ++ events2)
  = run onScanComplete st events1 ≫= λ st', run onScanComplete st' events2.
Proof.
  revert st. induction events1 as [|ev events1 IH]; intros st; simpl; [done|].
  destruct (step onScanComplete st ev); [apply IH|done].
Qed.

(** The timer is armed exactly as the effect prescribes for the scan
    currently held in state. *)
Lemma step_interval st ev st' :
  step onScanComplete st ev = Some st' →
  interval st = pollingEffect (scan st) →
  interval st' = pollingEffect (scan st').
Proof.
  intros Hstep Hinv. destruct ev; simpl in Hstep.
  - destruct (interval st); by simplify_eq.
  - destruct (loading st); by simplify_eq.
  - case_bool_decide; simplify_eq. simpl. unfold rerunEffect.
    case_decide as Hdeps; [|done].
    rewrite Hinv. apply pollingEffect_status, Hdeps.
  - case_bool_decide; by simplify_eq.
Qed.

Lemma run_interval st events st' :
  run onScanComplete st events = Some st' →
  interval st = pollingEffect (scan st) →
  interval st' = pollingEffect (scan st').
Proof.
  revert st. induction events as [|ev events IH]; intros st Hrun Hinv;
    simpl in Hrun; [by simplify_eq|].
  destruct (step onScanComplete st ev) as [st1|] eqn:Hstep; [|done].
  eauto using step_interval.
Qed.

Lemma mount_interval initialScan :
  interval (mount initialScan) = pollingEffect (scan (mount initialScan)).
Proof. done. Qed.

(** While the scan held in state is terminal and no answer says running,
    the timer cannot fire. *)
Lemma run_terminal_no_tick st events st' :
  run onScanComplete st events = Some st' →
  interval st = pollingEffect (scan st) →
  isTerminal (status (scan st)) = true →
  Forall (λ ev, isResolveWith isRunning ev = false) events →
  Forall (λ ev, isTick ev = false) events
  ∧ isTerminal (status (scan st')) = true.
Proof.
  revert st. induction events as [|ev events IH]; intros st Hrun Hinv Hterm Hans;
    simpl in Hrun; [by simplify_eq|].
  destruct (step onScanComplete st ev) as [st1|] eqn:Hstep; [|done].
  apply Forall_cons in Hans as [Hev Hans].
  assert (Hterm1 : isTerminal (status (scan st1)) = true).
  { destruct ev; simpl in Hstep.
    - destruct (interval st); by simplify_eq.
    - destruct (loading st); by simplify_eq.
    - case_bool_decide; simplify_eq. simpl in *. unfold isRunning in Hev.
      apply bool_decide_eq_false in Hev. by destruct (status updatedScan).
    - case_bool_decide; by simplify_eq. }
  destruct (IH st1 Hrun (step_interval _ _ _ Hstep Hinv) Hterm1 Hans) as [Hticks Hend].
  split; [|done]. constructor; [|done].
  destruct ev; try done. simpl in Hstep.
  rewrite Hinv in Hstep. unfold pollingEffect in Hstep.
  destruct (status (scan st)); by try case_decide.
Qed.

(** C8, as the component implements it.  In every state the component
    reaches: while the scan it holds is running, the timer is armed with
    a period of 5000 ms and its next firing starts a status fetch; and
    once a status answer has reported completed or failed, the timer is
    cleared and does not fire again for as long as no later answer
    reports running. *)
Theorem polling_follows_status (initialScan : ComplianceScanResult.t)
    (events : list Event) (st : State) :
  run onScanComplete (mount initialScan) events = Some st →
  (status (scan st) = running →
   interval st = Some 5000%Z
   ∧ ∃ st', step onScanComplete st Tick = Some st'
            ∧ polls st' = S (polls st) ∧ pending st' = S (pending st))
  ∧ (∀ before updatedScan after,
       events = before ++ Resolve updatedScan :: after →
       isTerminal (status updatedScan) = true →
       Forall (λ ev, isResolveWith isRunning ev = false) after →
       Forall (λ ev, isTick ev = false) after
       ∧ interval st = None
       ∧ step onScanComplete st Tick = None).
Proof.
  intros Hrun.
  pose proof (run_interval _ _ _ Hrun (mount_interval initialScan)) as Hinv.
  split.
  - intros Hst. assert (Hi : interval st = Some 5000%Z).
    { rewrite Hinv. unfold pollingEffect. by rewrite decide_True. }
    split; [done|]. simpl. rewrite Hi. by eexists.
  - intros before updatedScan after -> Hterm Hans.
    rewrite run_app in Hrun.
    destruct (run onScanComplete (mount initialScan) before) as [st0|] eqn:Hbefore;
      [|done].
    simpl in Hrun.
    destruct (bool_decide (pending st0 = 0)) eqn:Hp; [done|].
    pose proof (run_interval _ _ _ Hbefore (mount_interval initialScan)) as Hinv0.
    assert (Hinv1 : interval (resolveUpdate onScanComplete st0 updatedScan)
                    = pollingEffect (scan (resolveUpdate onScanComplete st0 updatedScan))).
    { apply (step_interval st0 (Resolve updatedScan)); [|done].
      simpl. by rewrite Hp. }
    destruct (run_terminal_no_tick _ _ _ Hrun Hinv1 Hterm Hans) as [Hticks Hend].
    assert (Hnone : interval st = None).
    { rewrite Hinv. unfold pollingEffect.
      destruct (status (scan st)); [done|by rewrite decide_False..]. }
    split; [done|]. split; [done|]. simpl. by rewrite Hnone.
Qed.

Lemma run_completeCalls st events st' :
  run onScanComplete st events = Some st' →
  completeCalls st'
  = completeCalls st + (if onScanComplete then completedAnswers events else 0).
Proof.
  revert st. induction events as [|ev events IH]; intros st Hrun; simpl in Hrun.
  - simplify_eq. simpl. destruct onScanComplete; lia.
  - destruct (step onScanComplete st ev) as [st1|] eqn:Hstep; [|done].
    rewrite (IH st1 Hrun). clear IH Hrun.
    destruct ev; simpl in Hstep.
    + destruct (interval st); simplify_eq. simpl. destruct onScanComplete; lia.
    + destruct (loading st); simplify_eq. simpl. destruct onScanComplete; lia.
    + case_bool_decide; simplify_eq. simpl. unfold isCompleted.
      destruct (bool_decide (status updatedScan = completed)), onScanComplete;
        simpl; lia.
    + case_bool_decide; simplify_eq. simpl. destruct onScanComplete; lia.
Qed.

(** C9, as the component implements it.  The callback is invoked once
    for each status answer, automatic or manual, that reports completed,
    whether or not the scan was already shown as completed; it is not
    invoked for any other event, nor at all when the parent passed no
    callback. *)
Theorem onScanComplete_per_completed_answer (initialScan : ComplianceScanResult.t)
    (events : list Event) (st : State) :
  run onScanComplete (mount initialScan) events = Some st →
  completeCalls st = if onScanComplete then completedAnswers events else 0.
Proof. intros Hrun. by rewrite (run_completeCalls _ _ _ Hrun). Qed.

End ScanProgressMachine.

Section ScanProgressMachineExamples.
Import ComplianceScanResult ScanProgress Examples.

Lemma polling_follows_status_witness :
  (interval (mount (scanWith running 200 50)) = Some 5000%Z
   ∧ ∃ st', step true (mount (scanWith running 200 50)) Tick = Some st'
            ∧ polls st' = 1 ∧ pending st' = 1)
  ∧ (Forall (λ ev, isTick ev = false) [Refresh; Resolve (scanWith completed 200 200)]
     ∧ interval
         (mkState (scanWith completed 200 200) false None 0 1 2) = None
     ∧ step true (mkState (scanWith completed 200 200) false None 0 1 2) Tick = None).
Proof.
  split.
  - apply (polling_follows_status true (scanWith running 200 50) []
             (mount (scanWith running 200 50))); reflexivity.
  - apply (polling_follows_status true (scanWith running 200 50)
             [Tick; Resolve (scanWith completed 200 200);
              Refresh; Resolve (scanWith completed 200 200)]
             (mkState (scanWith completed 200 200) false None 0 1 2)
             eq_refl)
      with (before := [Tick]) (updatedScan := scanWith completed 200 200).
    + reflexivity.
    + reflexivity.
    + repeat constructor.
Defined.

(** Two polls are in flight; the later one is answered first and says
    completed, which clears the timer; then the earlier one is answered
    and says running, and the timer fires again. *)
Lemma polling_resumes_after_late_answer :
  run false (mount (scanWith running 200 50))
    ([Tick; Tick] ++ Resolve (scanWith completed 200 200)
       :: [Resolve (scanWith running 200 150); Tick])
  = Some (mkState (scanWith running 200 150) true (Some 5000%Z) 1 3 0)
  ∧ isTerminal (status (scanWith completed 200 200)) = true
  ∧ Tick ∈ [Resolve (scanWith running 200 150); Tick].
Proof. split; [reflexivity|]. split; [reflexivity|]. apply list_elem_of_In. simpl. auto. Qed.

Lemma onScanComplete_per_completed_answer_witness :
  completeCalls (mkState (scanWith completed 200 200) false None 0 1 1)
  = completedAnswers [Tick; Resolve (scanWith completed 200 200)].
Proof.
  apply (onScanComplete_per_completed_answer true (scanWith running 200 50)
           [Tick; Resolve (scanWith completed 200 200)]).
  reflexivity.
Defined.

(** One poll takes the scan to completed; a manual refresh then fetches
    the status of the already completed scan, and the callback runs a
    second time. *)
Lemma onScanComplete_runs_again_on_refresh :
  run true (mount (scanWith running 200 50))
    [Tick; Resolve (scanWith completed 200 200)]
  = Some (mkState (scanWith completed 200 200) false None 0 1 1)
  ∧ run true (mkState (scanWith completed 200 200) false None 0 1 1)
      [Refresh; Resolve (scanWith completed 200 200)]
    = Some (mkState (scanWith completed 200 200) false None 0 1 2)
  ∧ completeCalls (mkState (scanWith completed 200 200) false None 0 1 2) = 2.
Proof. repeat split; reflexivity. Qed.

End ScanProgressMachineExamples.

(** * Further properties *)

(** ** Violations table: order, idempotence and header clicks *)

Section SortedInputFacts.
Context {A : Type}.

(** Sorting a list that is already in order returns it unchanged. *)
Lemma Array_sort_sorted_id (c : A → A → Z) (l : list A) :
  StronglySorted (λ a b, (c a b ≤ 0)%Z) l → Array_sort c l = l.
Proof.
  induction 1 as [|x l Hs IH Hx]; simpl; [done|].
  rewrite IH. destruct l as [|y l]; simpl; [done|].
  apply Forall_cons in Hx as [Hxy _].
  by rewrite (proj2 (Z.ltb_ge 0 (c x y))).
Qed.

End SortedInputFacts.

Section ThreeWayOrderFacts.
Import ViolationsTable.
Context {A : Type} (lt : A → A → bool).
Hypothesis lt_irrefl : ∀ a, lt a a = false.
Hypothesis lt_trans : ∀ a b d, lt a b = true → lt b d = true → lt a d = true.

Lemma threeWay_le d a b :
  (threeWay lt d a b ≤ 0)%Z ↔
  (if d is asc then lt b a else lt a b) = false.
Proof.
  unfold threeWay. destruct d, (lt a b) eqn:Hab, (lt b a) eqn:Hba;
    try (apply (lt_asym lt lt_irrefl lt_trans) in Hab; congruence);
    split; (lia || done).
Qed.

Lemma threeWay_sort_strict d (l : list A) :
  ForallOrdPairs (λ a b, threeWay lt asc a b ≠ 0%Z) l →
  StronglySorted (λ a b, (threeWay lt d a b < 0)%Z) (Array_sort (threeWay lt d) l).
Proof.
  intros Hl. apply Array_sort_strict.
  - intros a b. rewrite (threeWay_opp lt lt_irrefl lt_trans). lia.
  - apply (threeWay_trans lt lt_irrefl lt_trans).
  - intros a b. rewrite (threeWay_opp lt lt_irrefl lt_trans). lia.
  - eapply ForallOrdPairs_impl; [|exact Hl].
    intros a b. simpl. by rewrite (threeWay_tie lt d).
Qed.

(** Without ties the two directions produce mirror images of one
    another, from any input order. *)
Lemma threeWay_sort_reverse (l : list A) :
  ForallOrdPairs (λ a b, threeWay lt asc a b ≠ 0%Z) l →
  Array_sort (threeWay lt desc) l = reverse (Array_sort (threeWay lt asc) l).
Proof.
  intros Hl.
  apply (StronglySorted_unique_strong (λ a b, (threeWay lt desc a b < 0)%Z)).
  - intros a b _ _ Hab Hba.
    rewrite (threeWay_opp lt lt_irrefl lt_trans) in Hba. lia.
  - by apply threeWay_sort_strict.
  - rewrite <-(list_fmap_id (reverse _)).
    eapply StronglySorted_fmap;
      [|apply StronglySorted_reverse, (threeWay_sort_strict asc), Hl].
    intros a b. unfold flip. simpl.
    by rewrite (threeWay_desc lt lt_irrefl lt_trans).
  - by rewrite reverse_Permutation, !Array_sort_perm.
Qed.

End ThreeWayOrderFacts.

Section ViolationsTableOrder.
Import PolicyViolation ViolationsTable.
Context `{JsHost}.

Lemma string_ltb_false s1 s2 : String.ltb s1 s2 = false ↔ String.le s2 s1.
Proof.
  pose proof (string_ltb_not_le s1 s2) as Hlt.
  destruct (String.ltb s1 s2).
  - split; [done|]. intros Hle. by destruct (proj1 Hlt eq_refl).
  - split; [|done]. intros _.
    destruct (decide (String.le s2 s1)) as [|Hn]; [done|].
    by apply Hlt in Hn.
Qed.

Lemma string_ltb_neg_trans s1 s2 s3 :
  String.ltb s1 s2 = false → String.ltb s2 s3 = false → String.ltb s1 s3 = false.
Proof. rewrite !string_ltb_false. intros H21 H32. by trans s2. Qed.

(** On rows whose timestamps can be read, "not less" is transitive for
    every sort key. *)
Lemma keyLess_neg_trans f a b e :
  (f = F_detected_at →
   is_Some (Date_getTime (detected_at a))
   ∧ is_Some (Date_getTime (detected_at b))
   ∧ is_Some (Date_getTime (detected_at e))) →
  keyLess f a b = false → keyLess f b e = false → keyLess f a e = false.
Proof.
  intros Hread. destruct f; simpl; eauto using string_ltb_neg_trans.
  - destruct (Hread eq_refl) as ([x ->] & [y ->] & [z ->]). simpl.
    rewrite !Z.ltb_ge. lia.
  - rewrite !Z.ltb_ge. lia.
Qed.

Lemma compareFn_flip f d a b :
  (0 < compareFn f d a b)%Z → (compareFn f d b a ≤ 0)%Z.
Proof.
  rewrite !compareFn_threeWay.
  rewrite (threeWay_opp _ (keyLess_irrefl f) (keyLess_trans f) d a b). lia.
Qed.

(** Among rows with readable timestamps, "not after" is transitive. *)
Lemma compareFn_le_trans f d (vs : list PolicyViolation.t) a b e :
  (f = F_detected_at → Forall (λ v, is_Some (Date_getTime (detected_at v))) vs) →
  a ∈ vs → b ∈ vs → e ∈ vs →
  (compareFn f d a b ≤ 0)%Z → (compareFn f d b e ≤ 0)%Z →
  (compareFn f d a e ≤ 0)%Z.
Proof.
  intros Hread Ha Hb He. rewrite !compareFn_threeWay.
  rewrite !(threeWay_le _ (keyLess_irrefl f) (keyLess_trans f)).
  assert (Hsome : f = F_detected_at →
            ∀ v, v ∈ vs → is_Some (Date_getTime (detected_at v))).
  { intros Hf. by apply Forall_forall, Hread. }
  destruct d; intros Hab Hbe.
  - apply (keyLess_neg_trans f e b a); [|done..].
    intros Hf. repeat split; by apply Hsome.
  - apply (keyLess_neg_trans f a b e); [|done..].
    intros Hf. repeat split; by apply Hsome.
Qed.

(** X1. Whatever the field and the direction, the rows come out in
    order: no row is followed, anywhere below it, by a row that the
    comparison function puts before it.  For the detection date this
    needs every timestamp in the list to be readable. *)
Theorem sortedList_in_order (sortField : SortField) (sortDirection : SortDirection)
    (violations : list PolicyViolation.t) :
  (sortField = F_detected_at →
   Forall (λ v, is_Some (Date_getTime (detected_at v))) violations) →
  StronglySorted (λ a b, (compareFn sortField sortDirection a b ≤ 0)%Z)
    (sortedList sortField sortDirection violations).
Proof.
  intros Hread. apply Array_sort_sorted.
  - intros a b _ _. apply compareFn_flip.
  - intros a b e. by apply (compareFn_le_trans _ _ violations).
Qed.

(** X3. Sorting is idempotent: sorting the displayed rows again by the
    same field and direction changes nothing (timestamps readable when
    the field is the detection date). *)
Theorem sortedList_idempotent (sortField : SortField) (sortDirection : SortDirection)
    (violations : list PolicyViolation.t) :
  (sortField = F_detected_at →
   Forall (λ v, is_Some (Date_getTime (detected_at v))) violations) →
  sortedList sortField sortDirection (sortedList sortField sortDirection violations)
  = sortedList sortField sortDirection violations.
Proof.
  intros Hread. apply Array_sort_sorted_id, Array_sort_sorted.
  - intros a b _ _. apply compareFn_flip.
  - intros a b e. by apply (compareFn_le_trans _ _ violations).
Qed.

Lemma sortedList_flip f vs :
  ForallOrdPairs (λ a b, ¬ tied f a b) vs →
  sortedList f desc vs = reverse (sortedList f asc vs).
Proof.
  intros Hties. rewrite !sortedList_threeWay.
  apply threeWay_sort_reverse; [apply keyLess_irrefl|apply keyLess_trans|].
  eapply ForallOrdPairs_impl; [|exact Hties].
  intros a b. unfold tied. by rewrite compareFn_threeWay.
Qed.

(** X4. Clicking the header of the column the table is sorted by shows
    the same rows in exactly the reverse order when no two rows tie on
    that column, and a second click restores the sort configuration. *)
Theorem header_click_reverses (sortField : SortField) (sortDirection : SortDirection)
    (violations : list PolicyViolation.t) :
  ForallOrdPairs (λ a b, ¬ tied sortField a b) violations →
  sortedList (handleSort sortField sortDirection sortField).1
             (handleSort sortField sortDirection sortField).2 violations
  = reverse (sortedList sortField sortDirection violations)
  ∧ handleSort (handleSort sortField sortDirection sortField).1
               (handleSort sortField sortDirection sortField).2 sortField
    = (sortField, sortDirection).
Proof.
  intros Hties. unfold handleSort. rewrite decide_True by done. simpl.
  rewrite decide_True by done. split.
  - destruct sortDirection.
    + by apply sortedList_flip.
    + rewrite (sortedList_flip sortField violations Hties).
      by rewrite reverse_involutive.
  - by destruct sortDirection.
Qed.

(** X2. The sort is stable in both directions: rows that tie with one
    another on the sort field keep the order they have in the input.
    For the detection date this needs every timestamp in the list to be
    readable, as the order of the sort is otherwise left to the
    JavaScript engine. *)
Theorem tied_rows_keep_their_order (sortField : SortField)
    (sortDirection : SortDirection) (P : PolicyViolation.t → Prop)
    `{∀ v, Decision (P v)} (violations : list PolicyViolation.t) :
  (sortField = F_detected_at →
   Forall (λ v, is_Some (Date_getTime (detected_at v))) violations) →
  (∀ a b, P a → P b → tied sortField a b) →
  filter P (sortedList sortField sortDirection violations) = filter P violations.
Proof.
  intros _ Htied. apply Array_sort_stable. intros a b Ha Hb.
  pose proof (Htied a b Ha Hb) as Hab. unfold tied in Hab.
  rewrite compareFn_threeWay in *.
  apply (threeWay_tie (keyLess sortField) sortDirection) in Hab. lia.
Qed.

End ViolationsTableOrder.

Section ViolationsTableOrderExamples.
Import PolicyViolation ViolationsTable Examples.

Lemma sortedList_in_order_witness :
  StronglySorted (λ a b, (compareFn F_detected_at asc a b ≤ 0)%Z)
    (sortedList F_detected_at asc [rowA; rowB; rowC; vLow]).
Proof.
  apply (sortedList_in_order F_detected_at asc [rowA; rowB; rowC; vLow]).
  intros _. repeat constructor; by eexists.
Defined.

Lemma sortedList_idempotent_witness :
  sortedList F_resource_name desc
    (sortedList F_resource_name desc [rowA; vLow; rowB; vHigh; rowC])
  = sortedList F_resource_name desc [rowA; vLow; rowB; vHigh; rowC].
Proof.
  apply (sortedList_idempotent F_resource_name desc [rowA; vLow; rowB; vHigh; rowC]).
  discriminate.
Defined.

Lemma header_click_reverses_witness :
  sortedList (handleSort F_status desc F_status).1
             (handleSort F_status desc F_status).2 [rowA; rowB; rowC]
  = reverse (sortedList F_status desc [rowA; rowB; rowC])
  ∧ handleSort (handleSort F_status desc F_status).1
               (handleSort F_status desc F_status).2 F_status
    = (F_status, desc).
Proof.
  apply (header_click_reverses F_status desc [rowA; rowB; rowC]).
  repeat constructor; by vm_compute.
Defined.

(** The two HIGH rows keep their input order under a sort by severity. *)
Lemma tied_rows_keep_their_order_witness :
  filter (λ v, severity v = HIGH)
    (sortedList F_severity desc [vHigh; vLow; rowB; vCritical])
  = filter (λ v, severity v = HIGH) [vHigh; vLow; rowB; vCritical].
Proof.
  apply (tied_rows_keep_their_order F_severity desc (λ v, severity v = HIGH)
           [vHigh; vLow; rowB; vCritical]); [discriminate|].
  intros a b Ha Hb. unfold tied. simpl. rewrite Ha, Hb. reflexivity.
Defined.

End ViolationsTableOrderExamples.

(** ** Violations table: row checkboxes and the row's status update *)

Section ViolationsTableRows.
Import PolicyViolation ViolationsTable.
Implicit Types (violations : list PolicyViolation.t) (selected : gset string).

Lemma tick_all_rows violations selected :
  foldr (λ v sel, toggleOne v true sel) selected violations
  = selected ∪ visibleIds violations.
Proof.
  induction violations as [|v vs IH]; cbn [foldr].
  - unfold visibleIds. simpl. by rewrite (right_id_L ∅ (∪)).
  - rewrite IH. unfold toggleOne, visibleIds. simpl.
    by rewrite <-(assoc_L (∪)), (comm_L (∪) (list_to_set _)).
Qed.

(** X5. The row checkboxes and the header checkbox agree: after every
    listed row has been ticked, the selection is exactly the listed ids
    and the header checkbox shows checked; unticking any one row then
    makes it unchecked again.  (Non-empty list, unique ids, no selected
    id outside the list.) *)
Theorem row_ticks_drive_header violations selected :
  violations ≠ [] →
  NoDup (violation_id <$> violations) →
  selected ⊆ visibleIds violations →
  foldr (λ v sel, toggleOne v true sel) selected violations = visibleIds violations
  ∧ selectAllChecked violations
      (foldr (λ v sel, toggleOne v true sel) selected violations) = true
  ∧ ∀ v, v ∈ violations →
      selectAllChecked violations (toggleOne v false (visibleIds violations)) = false.
Proof.
  intros Hne Hnd Hsub.
  assert (Hall : foldr (λ v sel, toggleOne v true sel) selected violations
                 = visibleIds violations).
  { rewrite tick_all_rows. by apply subseteq_union_1_L. }
  split; [done|]. split.
  - rewrite Hall. by apply selectAllChecked_spec.
  - intros v Hv. apply not_true_is_false. intros Hc.
    apply selectAllChecked_spec in Hc; [|done|done|].
    + assert (Hin : violation_id v ∈ visibleIds violations).
      { unfold visibleIds. apply elem_of_list_to_set, list_elem_of_fmap. eauto. }
      rewrite <-Hc in Hin. unfold toggleOne in Hin.
      apply elem_of_difference in Hin as [_ Hn]. apply Hn.
      by apply elem_of_singleton.
    + unfold toggleOne. intros x Hx.
      by apply elem_of_difference in Hx as [? _].
Qed.

(** X6. The table's status update never rejects.  It sends one PATCH to
    the violation's status endpoint carrying the new status and no
    notes; the refresh callback runs exactly once when that request
    succeeds and a callback was passed, and not at all when it fails, in
    which case the normalised error is only logged. *)
Theorem row_update_outcome (apiKey : option string) {T : Type}
    (adapter : AxiosRequestConfig.t → Settled AxiosError.t (AxiosResponse.t T))
    (onViolationUpdate : bool) (violationId newStatus : string) :
  ViolationRow.updateViolationStatus apiKey adapter onViolationUpdate
    violationId newStatus
  = Fulfilled
      match adapter (ComplianceApiService.requestInterceptor apiKey
                       (AxiosRequestConfig.mk "patch"
                          ("/violations/" +:+ violationId +:+ "/status") []
                          [("status", newStatus)] []))
      with
      | Fulfilled _ =>
          ViolationRow.mkEffects (if onViolationUpdate then 1 else 0) None
      | Rejected error =>
          ViolationRow.mkEffects 0 (Some (ComplianceApiService.handleApiError error))
      end.
Proof.
  unfold ViolationRow.updateViolationStatus,
    ComplianceApiService.updateViolationStatus, await,
    ComplianceApiService.patch, ComplianceApiService.request, then_.
  by destruct (adapter _).
Qed.

End ViolationsTableRows.

Section ViolationsTableRowsExamples.
Import PolicyViolation ViolationsTable Examples.

Lemma row_ticks_drive_header_witness :
  foldr (λ v sel, toggleOne v true sel) {[ "b" ]} [rowA; rowB; rowC]
  = visibleIds [rowA; rowB; rowC]
  ∧ selectAllChecked [rowA; rowB; rowC]
      (foldr (λ v sel, toggleOne v true sel) {[ "b" ]} [rowA; rowB; rowC]) = true
  ∧ ∀ v, v ∈ [rowA; rowB; rowC] →
      selectAllChecked [rowA; rowB; rowC]
        (toggleOne v false (visibleIds [rowA; rowB; rowC])) = false.
Proof.
  apply (row_ticks_drive_header [rowA; rowB; rowC] {[ "b" ]}).
  - done.
  - apply (bool_decide_unpack _). vm_compute. exact I.
  - apply (bool_decide_unpack _). vm_compute. exact I.
Defined.

End ViolationsTableRowsExamples.

(** ** API client: what is sent and what a bare error becomes *)

Section ApiClientRequests.
Import ComplianceApiService.

Lemma getHeader_setHeader name value headers :
  getHeader name (setHeader name value headers) = Some value.
Proof.
  induction headers as [|[k v] rest IH]; simpl.
  - by rewrite String.eqb_refl.
  - destruct (String.eqb k name) eqn:Hk; simpl.
    + by rewrite String.eqb_refl.
    + by rewrite Hk.
Qed.

Lemma getHeader_setHeader_ne name name' value headers :
  name' ≠ name →
  getHeader name' (setHeader name value headers) = getHeader name' headers.
Proof.
  intros Hne. induction headers as [|[k v] rest IH]; simpl.
  - by rewrite (proj2 (String.eqb_neq name name')).
  - destruct (String.eqb_spec k name) as [->|Hk]; simpl.
    + by rewrite !(proj2 (String.eqb_neq name name')).
    + by rewrite IH.
Qed.

(** X7. The request interceptor changes nothing about a request except
    its Authorization header: method, URL, query parameters and body are
    untouched and every other header reads as before.  When a non-empty
    API key is configured the Authorization header reads as the bearer
    token afterwards, whether or not the request already had one;
    without a key the request is passed on unchanged. *)
Theorem requestInterceptor_only_adds_token (apiKey : option string)
    (config : AxiosRequestConfig.t) :
  AxiosRequestConfig.method (requestInterceptor apiKey config)
  = AxiosRequestConfig.method config
  ∧ AxiosRequestConfig.url (requestInterceptor apiKey config)
    = AxiosRequestConfig.url config
  ∧ AxiosRequestConfig.params (requestInterceptor apiKey config)
    = AxiosRequestConfig.params config
  ∧ AxiosRequestConfig.data (requestInterceptor apiKey config)
    = AxiosRequestConfig.data config
  ∧ (∀ name, name ≠ "Authorization" →
       getHeader name (AxiosRequestConfig.headers (requestInterceptor apiKey config))
       = getHeader name (AxiosRequestConfig.headers config))
  ∧ (∀ key, apiKey = Some key → key ≠ "" →
       getHeader "Authorization"
         (AxiosRequestConfig.headers (requestInterceptor apiKey config))
       = Some ("Bearer " +:+ key))
  ∧ (apiKey = None ∨ apiKey = Some "" → requestInterceptor apiKey config = config).
Proof.
  unfold requestInterceptor. destruct apiKey as [key|]; simpl.
  - destruct (String.eqb_spec key "") as [->|Hkey]; simpl.
    + repeat split; try done. by intros k [= <-].
    + split; [done|]. split; [done|]. split; [done|]. split; [done|].
      split; [|split].
      * intros name Hne. by apply getHeader_setHeader_ne.
      * intros k [= <-] _. apply getHeader_setHeader.
      * intros [|[= ->]]; done.
  - repeat split; done.
Qed.

(** X8. The violations listing never asks for page 0, for a page size
    of 0 or with an empty sort key: a missing or zero page becomes 1, a
    missing or zero page size becomes 50, a missing or empty sort field
    becomes detected_at and a missing or empty sort order becomes desc;
    any other value is sent as given.  The request is a GET of
    /violations whose query carries these four parameters, followed by
    the filters only when filters were passed. *)
Theorem getViolations_query (apiKey : option string) {T : Type}
    (adapter : AxiosRequestConfig.t →
               Settled AxiosError.t (AxiosResponse.t (ApiResponse.t T)))
    (page page_size : option Z) (sort_by sort_order filters : option string) :
  ∃ (p s : Z) (sb so : string),
    getViolations apiKey adapter page page_size sort_by sort_order filters
    = await (get apiKey adapter "/violations"
               ([ ("page", pretty p); ("page_size", pretty s);
                  ("sort_by", sb); ("sort_order", so) ]
                ++ match filters with
                   | Some f => [("filters", f)]
                   | None => []
                   end))
            unwrap
    ∧ p ≠ 0%Z ∧ s ≠ 0%Z ∧ sb ≠ "" ∧ so ≠ ""
    ∧ p = match page with Some q => if (q =? 0)%Z then 1%Z else q | None => 1%Z end
    ∧ s = match page_size with
          | Some q => if (q =? 0)%Z then 50%Z else q
          | None => 50%Z
          end
    ∧ sb = or_else sort_by "detected_at"
    ∧ so = or_else sort_order "desc".
Proof.
  eexists _, _, _, _. split; [reflexivity|].
  split; [|split; [|split; [|split]]]; try done.
  - destruct page as [q|]; [|done]. destruct (Z.eqb_spec q 0); done.
  - destruct page_size as [q|]; [|done]. destruct (Z.eqb_spec q 0); done.
  - by apply or_else_nonempty.
  - by apply or_else_nonempty.
Qed.

(** X9. What a bare error becomes.  When the server's error body lacks
    a code, a message or a request id (the key is missing or holds the
    empty string), the normalised error gets the code HTTP_ followed by
    the status, the HTTP client's own message and the request id
    "unknown"; when there was no response at all, the details are absent
    and the request id is "unknown". *)
Theorem handleApiError_defaults (error : AxiosError.t) :
  (∀ response,
     AxiosError.response error = Some response →
     (ErrorPayload.code (ErrorResponse.data response) = None
      ∨ ErrorPayload.code (ErrorResponse.data response) = Some "" →
      ApiError.code (handleApiError error)
      = "HTTP_" +:+ pretty (ErrorResponse.status response))
     ∧ (ErrorPayload.message (ErrorResponse.data response) = None
        ∨ ErrorPayload.message (ErrorResponse.data response) = Some "" →
        ApiError.message (handleApiError error) = AxiosError.message error)
     ∧ (ErrorPayload.request_id (ErrorResponse.data response) = None
        ∨ ErrorPayload.request_id (ErrorResponse.data response) = Some "" →
        ApiError.request_id (handleApiError error) = "unknown"))
  ∧ (AxiosError.response error = None →
     ApiError.details (handleApiError error) = None
     ∧ ApiError.request_id (handleApiError error) = "unknown").
Proof.
  unfold handleApiError. split.
  - intros response ->. simpl. repeat split; intros [->| ->]; done.
  - intros ->. by destruct (AxiosError.request error).
Qed.

End ApiClientRequests.

Section ApiClientRequestsExamples.
Import ComplianceApiService Examples.

Lemma requestInterceptor_only_adds_token_witness :
  getHeader "Authorization"
    (AxiosRequestConfig.headers
       (requestInterceptor (Some "s3cr3t")
          (AxiosRequestConfig.mk "get" "/health" [] []
             [("Authorization", "Basic abc"); ("Accept", "application/json")])))
  = Some "Bearer s3cr3t"
  ∧ getHeader "Accept"
      (AxiosRequestConfig.headers
         (requestInterceptor (Some "s3cr3t")
            (AxiosRequestConfig.mk "get" "/health" [] []
               [("Authorization", "Basic abc"); ("Accept", "application/json")])))
    = getHeader "Accept"
        [("Authorization", "Basic abc"); ("Accept", "application/json")]
  ∧ requestInterceptor (Some "")
      (AxiosRequestConfig.mk "get" "/health" [] [] [])
    = AxiosRequestConfig.mk "get" "/health" [] [] [].
Proof.
  split; [|split].
  - apply (requestInterceptor_only_adds_token (Some "s3cr3t")
             (AxiosRequestConfig.mk "get" "/health" [] []
                [("Authorization", "Basic abc"); ("Accept", "application/json")])
             ); [reflexivity|discriminate].
  - apply (requestInterceptor_only_adds_token (Some "s3cr3t")
             (AxiosRequestConfig.mk "get" "/health" [] []
                [("Authorization", "Basic abc"); ("Accept", "application/json")])
             ). discriminate.
  - apply (requestInterceptor_only_adds_token (Some "")). by right.
Defined.

(** An Authorization header already present is overwritten where it
    stands, not duplicated. *)
Example requestInterceptor_overwrites :
  AxiosRequestConfig.headers
    (requestInterceptor (Some "s3cr3t")
       (AxiosRequestConfig.mk "get" "/health" [] []
          [("Authorization", "Basic abc"); ("Accept", "application/json")]))
  = [("Authorization", "Bearer s3cr3t"); ("Accept", "application/json")].
Proof. reflexivity. Qed.

Lemma handleApiError_defaults_witness :
  ApiError.code (handleApiError bareServerError) = "HTTP_502"
  ∧ ApiError.message (handleApiError bareServerError)
    = "Request failed with status code 502"
  ∧ ApiError.request_id (handleApiError bareServerError) = "unknown"
  ∧ ApiError.details (handleApiError networkDown) = None.
Proof.
  split; [|split; [|split]].
  - apply (proj1 (handleApiError_defaults bareServerError)
             (ErrorResponse.mk 502 (ErrorPayload.mk None None None None)));
      [reflexivity|by left].
  - apply (proj1 (handleApiError_defaults bareServerError)
             (ErrorResponse.mk 502 (ErrorPayload.mk None None None None)));
      [reflexivity|by left].
  - apply (proj1 (handleApiError_defaults bareServerError)
             (ErrorResponse.mk 502 (ErrorPayload.mk None None None None)));
      [reflexivity|by left].
  - apply (handleApiError_defaults networkDown). reflexivity.
Defined.

End ApiClientRequestsExamples.

(** ** Filter panel *)

Section FilterPanelFacts.
Import DashboardFilters FilterPanel.

Lemma getField_updateFilter field value prev :
  getField field (updateFilter field value prev) = Some value.
Proof. by destruct field. Qed.

Lemma getField_updateFilter_ne field field' value prev :
  field' ≠ field →
  getField field' (updateFilter field value prev) = getField field' prev.
Proof. by destruct field, field'. Qed.

Lemma date_range_updateFilter field value prev :
  date_range (updateFilter field value prev) = date_range prev.
Proof. by destruct field. Qed.

Lemma filter_out_absent (value : string) (l : list string) :
  value ∉ l → filter (λ v, v ≠ value) l = l.
Proof.
  induction l as [|w l IH]; [done|]. rewrite not_elem_of_cons. intros [Hne Hl].
  rewrite filter_cons_True by auto. by rewrite IH.
Qed.

Lemma toggleFilterValue_values field value filters :
  default [] (getField field (toggleFilterValue field value filters))
  = if bool_decide (value ∈ default [] (getField field filters))
    then filter (λ v, v ≠ value) (default [] (getField field filters))
    else default [] (getField field filters) ++ [value].
Proof. unfold toggleFilterValue. by rewrite getField_updateFilter. Qed.

(** X10. Toggling a value in one dimension of the draft flips that
    value's membership and its checkbox, keeps every other value of the
    dimension and their order, and leaves the other dimensions and the
    date range as they were. *)
Theorem toggleFilterValue_flips (field : Field) (value : string)
    (localFilters : DashboardFilters.t) :
  (value ∈ default [] (getField field (toggleFilterValue field value localFilters))
   ↔ value ∉ default [] (getField field localFilters))
  ∧ isChecked field value (toggleFilterValue field value localFilters)
    = negb (isChecked field value localFilters)
  ∧ filter (λ v, v ≠ value)
      (default [] (getField field (toggleFilterValue field value localFilters)))
    = filter (λ v, v ≠ value) (default [] (getField field localFilters))
  ∧ (∀ field', field' ≠ field →
       getField field' (toggleFilterValue field value localFilters)
       = getField field' localFilters)
  ∧ date_range (toggleFilterValue field value localFilters)
    = date_range localFilters.
Proof.
  assert (Hmem : value ∈ default []
                   (getField field (toggleFilterValue field value localFilters))
                 ↔ value ∉ default [] (getField field localFilters)).
  { rewrite toggleFilterValue_values. case_bool_decide as Hin.
    - rewrite list_elem_of_filter. split; [by intros [Hne _]|done].
    - rewrite elem_of_app, list_elem_of_singleton. split; [done|auto]. }
  split; [done|]. split; [|split; [|split]].
  - unfold isChecked.
    destruct (decide (value ∈ default [] (getField field localFilters))) as [Hin|Hin].
    + rewrite (bool_decide_eq_true_2 _ Hin). simpl.
      apply bool_decide_eq_false_2. rewrite Hmem. auto.
    + rewrite (bool_decide_eq_false_2 _ Hin). simpl.
      apply bool_decide_eq_true_2. by rewrite Hmem.
  - rewrite toggleFilterValue_values. case_bool_decide.
    + by rewrite list_filter_filter_l.
    + rewrite filter_app, filter_cons_False, filter_nil by auto.
      by rewrite app_nil_r.
  - intros field' Hne. unfold toggleFilterValue.
    by apply getField_updateFilter_ne.
  - unfold toggleFilterValue. apply date_range_updateFilter.
Qed.

(** X11. Toggling the same value twice gives back the same selection as
    a set; it gives back exactly the same list when the value was not
    selected to begin with (a missing key reading as the empty list),
    and otherwise moves the value to the end.  A selection without
    repeated values stays without repeated values. *)
Theorem toggleFilterValue_twice (field : Field) (value : string)
    (localFilters : DashboardFilters.t) :
  (∀ w, w ∈ default [] (getField field
                (toggleFilterValue field value
                   (toggleFilterValue field value localFilters)))
        ↔ w ∈ default [] (getField field localFilters))
  ∧ (value ∉ default [] (getField field localFilters) →
     default [] (getField field
       (toggleFilterValue field value (toggleFilterValue field value localFilters)))
     = default [] (getField field localFilters))
  ∧ (value ∈ default [] (getField field localFilters) →
     default [] (getField field
       (toggleFilterValue field value (toggleFilterValue field value localFilters)))
     = filter (λ v, v ≠ value) (default [] (getField field localFilters)) ++ [value])
  ∧ (NoDup (default [] (getField field localFilters)) →
     NoDup (default [] (getField field (toggleFilterValue field value localFilters)))).
Proof.
  set (cur := default [] (getField field localFilters)).
  assert (Hone : default [] (getField field (toggleFilterValue field value localFilters))
                 = if bool_decide (value ∈ cur)
                   then filter (λ v, v ≠ value) cur else cur ++ [value])
    by apply toggleFilterValue_values.
  assert (Hout : value ∉ filter (λ v, v ≠ value) cur).
  { rewrite list_elem_of_filter. by intros [Hne _]. }
  assert (Htwo : default [] (getField field
                   (toggleFilterValue field value
                      (toggleFilterValue field value localFilters)))
                 = if bool_decide (value ∈ cur)
                   then filter (λ v, v ≠ value) cur ++ [value] else cur).
  { rewrite toggleFilterValue_values, Hone. case_bool_decide as Hin.
    - by rewrite bool_decide_eq_false_2.
    - rewrite bool_decide_eq_true_2
        by (rewrite elem_of_app, list_elem_of_singleton; auto).
      rewrite filter_app, filter_cons_False, filter_nil, app_nil_r by auto.
      by apply filter_out_absent. }
  split; [|split; [|split]].
  - intros w. rewrite Htwo. case_bool_decide as Hin; [|done].
    rewrite elem_of_app, list_elem_of_filter, list_elem_of_singleton.
    destruct (decide (w = value)) as [->|Hne]; [by split; auto|].
    split; [by intros [[_ Hw]|Hw]|auto].
  - intros Hn. rewrite Htwo. by rewrite bool_decide_eq_false_2.
  - intros Hin. rewrite Htwo. by rewrite bool_decide_eq_true_2.
  - intros Hnd. rewrite Hone. case_bool_decide as Hin.
    + by apply NoDup_filter.
    + apply NoDup_app. split; [done|]. split; [|apply NoDup_singleton].
      intros v Hv ->%list_elem_of_singleton. done.
Qed.

End FilterPanelFacts.

Section FilterPanelExamples.
Import DashboardFilters FilterPanel Examples.

Lemma toggleFilterValue_flips_witness :
  getField K_severities (toggleFilterValue K_providers "AWS" awsAndGcp)
  = getField K_severities awsAndGcp
  ∧ default [] (getField K_providers (toggleFilterValue K_providers "AWS" awsAndGcp))
    = ["GCP"].
Proof.
  split.
  - apply (toggleFilterValue_flips K_providers "AWS" awsAndGcp). discriminate.
  - reflexivity.
Defined.

Lemma toggleFilterValue_twice_witness :
  default [] (getField K_statuses
    (toggleFilterValue K_statuses "OPEN" (toggleFilterValue K_statuses "OPEN" awsAndGcp)))
  = default [] (getField K_statuses awsAndGcp)
  ∧ default [] (getField K_providers
      (toggleFilterValue K_providers "AWS" (toggleFilterValue K_providers "AWS" awsAndGcp)))
    = filter (λ v, v ≠ "AWS") (default [] (getField K_providers awsAndGcp)) ++ ["AWS"]
  ∧ NoDup (default [] (getField K_providers (toggleFilterValue K_providers "AZURE" awsAndGcp))).
Proof.
  split; [|split].
  - apply (toggleFilterValue_twice K_statuses "OPEN" awsAndGcp).
    apply (bool_decide_unpack _). vm_compute. exact I.
  - apply (toggleFilterValue_twice K_providers "AWS" awsAndGcp).
    apply (bool_decide_unpack _). vm_compute. exact I.
  - apply (toggleFilterValue_twice K_providers "AZURE" awsAndGcp).
    apply (bool_decide_unpack _). vm_compute. exact I.
Defined.

End FilterPanelExamples.

(** ** Dashboard *)

Section DashboardFacts.
Import ComplianceApiService ComplianceDashboard.

(** X12. A refresh is all or nothing.  It asks for the metrics and for
    page 1 of the violations (100 per page, by severity, descending)
    under the same filters; only when both requests succeed are the
    metrics, the violations and the refresh time replaced, together.  If
    either fails, all three keep their previous values and the error
    message is set.  Either way the loading flag is cleared. *)
Theorem refresh_all_or_nothing (apiKey : option string)
    (metricsAdapter : AxiosRequestConfig.t →
       Settled AxiosError.t
         (AxiosResponse.t (ApiResponse.t ComplianceDashboardMetrics.t)))
    (violationsAdapter : AxiosRequestConfig.t →
       Settled AxiosError.t (AxiosResponse.t (ApiResponse.t ViolationsPage.t)))
    (filters : string) (st : State) (now : Z) :
  loading (settleLoad st
             (fetchDashboardData apiKey metricsAdapter violationsAdapter filters) now)
  = false
  ∧ match metricsAdapter
            (requestInterceptor apiKey
               (AxiosRequestConfig.mk "get" "/dashboard/metrics"
                  [("filters", filters)] [] [])),
          violationsAdapter
            (requestInterceptor apiKey
               (AxiosRequestConfig.mk "get" "/violations"
                  [("page", "1"); ("page_size", "100"); ("sort_by", "severity");
                   ("sort_order", "desc"); ("filters", filters)] [] []))
    with
    | Fulfilled metricsResponse, Fulfilled violationsResponse =>
        settleLoad st
          (fetchDashboardData apiKey metricsAdapter violationsAdapter filters) now
        = mkState (Some (payloadOf metricsResponse))
            (ViolationsPage.violations (payloadOf violationsResponse))
            (activeScans st) (ComplianceDashboard.filters st) false (error st)
            (panel st) now (timeouts st)
    | _, _ =>
        settleLoad st
          (fetchDashboardData apiKey metricsAdapter violationsAdapter filters) now
        = mkState (metrics st) (violations st) (activeScans st)
            (ComplianceDashboard.filters st) false
            (Some "Failed to load compliance data. Please check your connection.")
            (panel st) (lastRefresh st) (timeouts st)
    end.
Proof.
  unfold fetchDashboardData, getDashboardMetrics, getViolations, await, get,
    request, then_, unwrap, Promise_all2.
  simpl. change (pretty 1%Z) with "1". change (pretty 100%Z) with "100".
  destruct (metricsAdapter _) as [rm|em]; simpl; [|done].
  by destruct (violationsAdapter _) as [rv|ev].
Qed.

Lemma step_metrics st ev st' :
  step st ev = Some st' → is_Some (metrics st) → is_Some (metrics st').
Proof.
  intros Hstep Hm.
  destruct ev as [|[[m p]|e] now|[scanId|e]| | |field value|field value|value| | |];
    simpl in Hstep;
    try (destruct (panel st) eqn:Hp; simpl in Hstep);
    try (destruct (timeouts st) eqn:Ht);
    simplify_eq; simpl; eauto.
Qed.

(** X13. Once metrics have been loaded they are never lost: whatever
    happens afterwards (refreshes that fail, scans that fail to start,
    filter edits), the component still holds metrics and still renders
    the dashboard; the full-page loading and error screens cannot come
    back. *)
Theorem metrics_never_lost (st : State) (events : list Event) (st' : State) :
  run st events = Some st' →
  is_Some (metrics st) →
  is_Some (metrics st') ∧ render st' = Main.
Proof.
  intros Hrun Hm.
  assert (Hm' : is_Some (metrics st')).
  { revert st Hrun Hm. induction events as [|ev events IH]; intros st Hrun Hm;
      simpl in Hrun; [by simplify_eq|].
    destruct (step st ev) as [st1|] eqn:Hstep; [|done].
    eauto using step_metrics. }
  split; [done|]. unfold render. destruct Hm' as [m Hm'].
  rewrite Hm'. rewrite andb_false_r. simpl.
  destruct (error st') as [message|]; [|done]. by rewrite andb_false_r.
Qed.

(** X14. Nothing ever enters the list of active scans: no event changes
    it, so from mount on it stays empty and no scan progress card is
    rendered, also after a scan was started successfully. *)
Theorem activeScans_never_change (st : State) (events : list Event) (st' : State) :
  run st events = Some st' →
  activeScans st' = activeScans st
  ∧ (∀ now, st = mount now → activeScans st' = []).
Proof.
  intros Hrun.
  assert (Hsame : activeScans st' = activeScans st).
  { revert st Hrun. induction events as [|ev events IH]; intros st Hrun;
      simpl in Hrun; [by simplify_eq|].
    destruct (step st ev) as [st1|] eqn:Hstep; [|done].
    rewrite (IH st1 Hrun). clear IH Hrun.
    destruct ev as [|[[m p]|e] now|[scanId|e]| | |field value|field value|value| | |];
      simpl in Hstep;
      try (destruct (panel st) eqn:Hp; simpl in Hstep);
      try (destruct (timeouts st) eqn:Ht);
      by simplify_eq. }
  split; [done|]. intros now ->. by rewrite Hsame.
Qed.

(** X15. The applied filters change only through Apply.  Toggling
    values, resetting, closing the panel or pressing the Filters button
    never touches them, while Apply replaces them by the panel's draft
    and unmounts the panel. *)
Theorem filters_change_only_on_apply (st : State) (events : list Event) (st' : State) :
  run st events = Some st' →
  (Forall (λ ev, isPanelApply ev = false) events → filters st' = filters st)
  ∧ (∀ localFilters st2,
       panel st' = Some localFilters →
       step st' PanelApply = Some st2 →
       filters st2 = localFilters ∧ panel st2 = None).
Proof.
  intros Hrun. split.
  - revert st Hrun. induction events as [|ev events IH]; intros st Hrun Hev;
      simpl in Hrun; [by simplify_eq|].
    destruct (step st ev) as [st1|] eqn:Hstep; [|done].
    apply Forall_cons in Hev as [Hev Hrest].
    rewrite (IH st1 Hrun Hrest). clear IH Hrun.
    destruct ev as [|[[m p]|e] now|[scanId|e]| | |field value|field value|value| | |];
      simpl in Hstep, Hev;
      try (destruct (panel st) eqn:Hp; simpl in Hstep);
      try (destruct (timeouts st) eqn:Ht);
      by simplify_eq.
  - intros localFilters st2 Hp Hstep. simpl in Hstep. rewrite Hp in Hstep.
    simpl in Hstep. simplify_eq. by split.
Qed.

(** X16. Each scan that starts successfully schedules exactly one
    follow-up refresh, 2000 ms later, and a scan that fails to start
    schedules none: at any moment the refreshes still pending plus those
    already fired equal the number of scans started so far. *)
Theorem one_refresh_per_started_scan (now : Z) (events : list Event) (st : State) :
  run (mount now) events = Some st →
  length (timeouts st) + firedTimeouts events = startedScans events
  ∧ Forall (λ delay, delay = 2000%Z) (timeouts st).
Proof.
  intros Hrun.
  assert (Hgen : ∀ st0 st1, run st0 events = Some st1 →
            Forall (λ delay, delay = 2000%Z) (timeouts st0) →
            length (timeouts st1) + firedTimeouts events
            = length (timeouts st0) + startedScans events
            ∧ Forall (λ delay, delay = 2000%Z) (timeouts st1)).
  { clear. induction events as [|ev events IH]; intros st0 st1 Hrun Hall;
      simpl in Hrun.
    - simplify_eq. simpl. split; [lia|done].
    - destruct (step st0 ev) as [st2|] eqn:Hstep; [|done].
      destruct ev as [|[[m p]|e] now|[scanId|e]| | |field value|field value|value| | |];
        simpl in Hstep;
        try (destruct (panel st0) eqn:Hp; simpl in Hstep; simplify_eq;
             by apply (IH _ _ Hrun));
        try (simplify_eq; by apply (IH _ _ Hrun)).
      + simplify_eq. destruct (IH _ _ Hrun) as [Hlen Hf].
        { simpl. apply Forall_app. split; [done|]. by constructor. }
        split; [|done]. simpl in Hlen. rewrite length_app in Hlen.
        simpl in Hlen. simpl. lia.
      + destruct (timeouts st0) as [|delay rest] eqn:Ht; simplify_eq.
        apply Forall_cons in Hall as [_ Hrest].
        destruct (IH _ _ Hrun) as [Hlen Hf]; [done|].
        split; [|done]. simpl in *. lia. }
  destruct (Hgen _ _ Hrun) as [Hlen Hf]; [by constructor|].
  split; [|done]. simpl in Hlen. lia.
Qed.

(** X17. Starting a scan never rejects.  It posts the provider with the
    fixed resource types, policy bundle and frameworks to /scan; when
    the request succeeds, one refresh is scheduled 2000 ms later and
    nothing else changes; when it fails, nothing is scheduled and only
    the error message is set. *)
Theorem scan_start_outcome (apiKey : option string) {T : Type}
    (adapter : AxiosRequestConfig.t →
               Settled AxiosError.t (AxiosResponse.t (ApiResponse.t T)))
    (provider : Provider) (st : State) :
  settleScan st (startScanRequest apiKey adapter provider)
  = match adapter
            (requestInterceptor apiKey
               (AxiosRequestConfig.mk "post" "/scan" []
                  [ ("provider", provider_string provider);
                    ("resource_types", "S3_BUCKET,EC2_INSTANCE,RDS_DB_INSTANCE");
                    ("policy_bundle", "security_baseline");
                    ("compliance_frameworks", "SOC2,PCI_DSS") ] []))
    with
    | Fulfilled _ =>
        mkState (metrics st) (violations st) (activeScans st)
          (ComplianceDashboard.filters st) (loading st) (error st) (panel st)
          (lastRefresh st) (timeouts st ++ [2000%Z])
    | Rejected _ =>
        mkState (metrics st) (violations st) (activeScans st)
          (ComplianceDashboard.filters st) (loading st)
          (Some "Failed to start compliance scan. Please try again.") (panel st)
          (lastRefresh st) (timeouts st)
    end.
Proof.
  unfold startScanRequest, startComplianceScan, await, post, request, then_, unwrap.
  by destruct (adapter _).
Qed.

End DashboardFacts.

Section DashboardExamples.
Import ComplianceApiService ComplianceDashboard Examples.

Lemma metrics_never_lost_witness :
  ∃ st',
    run loadedDashboard
      [BeginLoad; LoadSettled (Rejected (handleApiError networkDown)) 1704067230000;
       ScanSettled (Rejected (handleApiError networkDown))]
    = Some st'
    ∧ is_Some (metrics st') ∧ render st' = Main.
Proof.
  eexists. split; [reflexivity|].
  apply (metrics_never_lost loadedDashboard
           [BeginLoad; LoadSettled (Rejected (handleApiError networkDown)) 1704067230000;
            ScanSettled (Rejected (handleApiError networkDown))]).
  - reflexivity.
  - by eexists.
Defined.

Lemma activeScans_never_change_witness :
  ∃ st',
    run (mount 1704067200000)
      [LoadSettled (Fulfilled (someMetrics, somePage)) 1704067201000;
       ScanSettled (Fulfilled "scan-7"); TimeoutFired]
    = Some st'
    ∧ activeScans st' = [].
Proof.
  eexists. split; [reflexivity|].
  apply (proj2 (activeScans_never_change (mount 1704067200000)
                  [LoadSettled (Fulfilled (someMetrics, somePage)) 1704067201000;
                   ScanSettled (Fulfilled "scan-7"); TimeoutFired]
                  _ eq_refl) 1704067200000%Z).
  reflexivity.
Defined.

Lemma filters_change_only_on_apply_witness :
  ∃ st',
    run loadedDashboard
      [FiltersButton; PanelToggle FilterPanel.K_providers "AWS"; PanelReset; PanelClose;
       FiltersButton; PanelToggle FilterPanel.K_severities "HIGH"]
    = Some st'
    ∧ filters st' = awsAndGcp
    ∧ ∃ st2, step st' PanelApply = Some st2
             ∧ filters st2
               = FilterPanel.toggleFilterValue FilterPanel.K_severities "HIGH" awsAndGcp
             ∧ panel st2 = None.
Proof.
  eexists. split; [reflexivity|]. split.
  - apply (proj1 (filters_change_only_on_apply loadedDashboard
             [FiltersButton; PanelToggle FilterPanel.K_providers "AWS"; PanelReset;
              PanelClose; FiltersButton;
              PanelToggle FilterPanel.K_severities "HIGH"] _ eq_refl)).
    repeat constructor.
  - eexists. split; [reflexivity|].
    apply (proj2 (filters_change_only_on_apply loadedDashboard
             [FiltersButton; PanelToggle FilterPanel.K_providers "AWS"; PanelReset;
              PanelClose; FiltersButton;
              PanelToggle FilterPanel.K_severities "HIGH"] _ eq_refl));
      reflexivity.
Defined.

Lemma one_refresh_per_started_scan_witness :
  ∃ st,
    run (mount 1704067200000)
      [ScanSettled (Fulfilled "scan-7");
       ScanSettled (Rejected (handleApiError networkDown));
       ScanSettled (Fulfilled "scan-8"); TimeoutFired]
    = Some st
    ∧ length (timeouts st) + 1 = 2
    ∧ Forall (λ delay, delay = 2000%Z) (timeouts st).
Proof.
  eexists. split; [reflexivity|].
  apply (one_refresh_per_started_scan 1704067200000
           [ScanSettled (Fulfilled "scan-7");
            ScanSettled (Rejected (handleApiError networkDown));
            ScanSettled (Fulfilled "scan-8"); TimeoutFired]).
  reflexivity.
Defined.

(** A refresh whose metrics request succeeds and whose violations
    request fails changes neither. *)
Example refresh_half_failed :
  settleLoad loadedDashboard
    (fetchDashboardData None
       (λ _, Fulfilled (envelope someMetrics))
       (λ _, Rejected networkDown) "{}")
    1704067230000
  = mkState (Some someMetrics) [vLow; vHigh] [] awsAndGcp false
      (Some "Failed to load compliance data. Please check your connection.")
      None 1704067200000 [].
Proof. reflexivity. Qed.

End DashboardExamples.

(** ** Scan progress: fetches that fail *)

Section ScanProgressQuiet.
Import ComplianceScanResult ScanProgress.
Context (onScanComplete : bool).

(** X18. As long as no status answer arrives, nothing the card shows
    changes: timer ticks, presses of Refresh and failed fetches leave
    the scan, the armed timer and the number of callback invocations as
    they were.  In particular a backend that cannot be reached neither
    stops the polling of a running scan nor triggers the callback. *)
Theorem failed_fetches_change_nothing (st : State) (events : list Event) (st' : State) :
  run onScanComplete st events = Some st' →
  Forall (λ ev, isResolveWith (λ _, true) ev = false) events →
  scan st' = scan st
  ∧ interval st' = interval st
  ∧ completeCalls st' = completeCalls st.
Proof.
  revert st. induction events as [|ev events IH]; intros st Hrun Hev;
    simpl in Hrun; [by simplify_eq|].
  destruct (step onScanComplete st ev) as [st1|] eqn:Hstep; [|done].
  apply Forall_cons in Hev as [Hev Hrest].
  destruct (IH st1 Hrun Hrest) as (-> & -> & ->). clear IH Hrun.
  destruct ev as [| |updatedScan|error]; simpl in Hstep, Hev; [| |done|].
  - destruct (interval st); by simplify_eq.
  - destruct (loading st); by simplify_eq.
  - case_bool_decide; by simplify_eq.
Qed.

End ScanProgressQuiet.

Section ScanProgressQuietExamples.
Import ComplianceScanResult ScanProgress ComplianceApiService Examples.

Lemma failed_fetches_change_nothing_witness :
  ∃ st',
    run true (mount (scanWith running 200 50))
      [Tick; Fail (handleApiError networkDown); Tick; Tick;
       Fail (handleApiError networkDown); Refresh]
    = Some st'
    ∧ scan st' = scanWith running 200 50
    ∧ interval st' = Some 5000%Z
    ∧ completeCalls st' = 0.
Proof.
  eexists. split; [reflexivity|].
  apply (failed_fetches_change_nothing true (mount (scanWith running 200 50))
           [Tick; Fail (handleApiError networkDown); Tick; Tick;
            Fail (handleApiError networkDown); Refresh]).
  - reflexivity.
  - repeat constructor.
Defined.

End ScanProgressQuietExamples.

(** ** Scan progress: which answer is shown *)

Section ScanProgressShown.
Import ComplianceScanResult ScanProgress ScanProgressAnswers.
Context (onScanComplete : bool).

(** X19. The card always shows the most recent status answer it
    received, or the scan it was mounted with when none has arrived yet:
    answers are applied in the order they arrive, whichever fetch they
    belong to, and nothing else changes the scan shown. *)
Theorem last_answer_is_shown (st : State) (events : list Event) (st' : State) :
  run onScanComplete st events = Some st' →
  scan st' = default (scan st) (lastAnswer events).
Proof.
  revert st. induction events as [|ev events IH]; intros st Hrun;
    simpl in Hrun; [by simplify_eq|].
  destruct (step onScanComplete st ev) as [st1|] eqn:Hstep; [|done].
  rewrite (IH st1 Hrun). simpl.
  destruct (lastAnswer events) as [shown|]; [done|]. simpl.
  destruct ev as [| |updatedScan|error]; simpl in Hstep.
  - destruct (interval st); by simplify_eq.
  - destruct (loading st); by simplify_eq.
  - case_bool_decide; by simplify_eq.
  - case_bool_decide; by simplify_eq.
Qed.

End ScanProgressShown.

Section ScanProgressShownExamples.
Import ComplianceScanResult ScanProgress ScanProgressAnswers Examples.

Lemma last_answer_is_shown_witness :
  ∃ st',
    run false (mount (scanWith running 200 50))
      [Tick; Tick; Resolve (scanWith completed 200 200);
       Resolve (scanWith running 200 150)]
    = Some st'
    ∧ scan st' = scanWith running 200 150.
Proof.
  eexists. split; [reflexivity|].
  apply (last_answer_is_shown false (mount (scanWith running 200 50))
           [Tick; Tick; Resolve (scanWith completed 200 200);
            Resolve (scanWith running 200 150)]).
  reflexivity.
Defined.

End ScanProgressShownExamples.
